(** * social_network.py: an undirected friendship graph

    A shallow embedding of [src/social_network.py] and the properties of
    its three operations [add_person], [add_friendship] and
    [print_network].

    Python objects are references.  A [Person] is therefore a cell of an
    object store, named by its address; [friend is self] and
    [friend not in self.friends] compare addresses ([Person] defines no
    [__eq__]), never names.  The dictionary [self.people] keeps insertion
    order and is an association list from names to addresses.  [print]
    appends a line to the output of the call.

    Strings are byte strings compared lexicographically byte by byte, which
    is Python's code point order on ASCII names (and on UTF-8 encodings). *)

From stdpp Require Import base list strings sorting.

(** ** Object store *)

Definition addr := nat.

(** [class Person]: the attributes set by [__init__]. *)
Record Person := mkPerson {
  name : string;
  friends : list addr   (* list[Person], a list of references *)
}.

(** The state a [SocialNetwork] lives in: the [Person] objects allocated
    so far (the address of an object is its index) and the dictionary
    [self.people]. *)
Record SocialNetwork := mkNetwork {
  heap : list Person;
  people : list (string * addr)   (* dict[str, Person], insertion order *)
}.

(** ** The monad of method bodies: state, printed lines, exceptions *)

Inductive exn :=
  | KeyError (key : string)   (* self.people[key] on a missing key *)
  | BadReference (a : addr).  (* reading an address outside the store *)

Inductive outcome (A : Type) :=
  | Return (a : A)
  | Raise (e : exn).
Arguments Return {A} a.
Arguments Raise {A} e.

Definition M (A : Type) : Type :=
  SocialNetwork → outcome A * SocialNetwork * list string.

#[export] Instance M_ret : MRet M := λ A a s, (Return a, s, []).

(** An exception leaves the state as it was when it was raised and skips
    the rest; the lines printed before it stay printed. *)
#[export] Instance M_bind : MBind M := λ A B f m s,
  match m s with
  | (Return a, s', out) =>
      match f a s' with (r, s'', out') => (r, s'', out ++ out') end
  | (Raise e, s', out) => (Raise e, s', out)
  end.

Definition raise {A} (e : exn) : M A := λ s, (Raise e, s, []).

(** [print(line)] *)
Definition print (line : string) : M unit := λ s, (Return tt, s, [line]).

(** The three components of a run. *)
Definition result {A} (m : M A) (s : SocialNetwork) : outcome A := (m s).1.1.
Definition exec {A} (m : M A) (s : SocialNetwork) : SocialNetwork := (m s).1.2.
Definition output {A} (m : M A) (s : SocialNetwork) : list string := (m s).2.

(** *** Objects *)

(** Reading the object behind a reference. *)
Definition deref (a : addr) : M Person := λ s,
  match heap s !! a with
  | Some p => (Return p, s, [])
  | None => raise (BadReference a) s
  end.

(** [Person(name)]: [__init__] stores the name and a new empty list; the
    new object gets the next free address. *)
Definition new_Person (nm : string) : M addr := λ s,
  (Return (length (heap s)),
   mkNetwork (heap s ++ [mkPerson nm []]) (people s), []).

(** [self.friends.append(friend)] *)
Definition friends_append (self friend : addr) : M unit := λ s,
  match heap s !! self with
  | Some p =>
      (Return tt,
       mkNetwork (<[self := mkPerson (name p) (friends p ++ [friend])]> (heap s))
                 (people s), [])
  | None => raise (BadReference self) s
  end.

(** *** The dictionary [self.people] *)

Fixpoint dict_get (d : list (string * addr)) (key : string) : option addr :=
  match d with
  | [] => None
  | (k, v) :: d' => if decide (k = key) then Some v else dict_get d' key
  end.

(** [d[key] = v]: an existing key keeps its place, a new key goes last. *)
Fixpoint dict_set (d : list (string * addr)) (key : string) (v : addr)
  : list (string * addr) :=
  match d with
  | [] => [(key, v)]
  | (k, w) :: d' =>
      if decide (k = key) then (k, v) :: d' else (k, w) :: dict_set d' key v
  end.

(** [key in self.people] *)
Definition people_contains (key : string) : M bool := λ s,
  (Return (bool_decide (is_Some (dict_get (people s) key))), s, []).

(** [self.people[key]] *)
Definition people_getitem (key : string) : M addr := λ s,
  match dict_get (people s) key with
  | Some a => (Return a, s, [])
  | None => raise (KeyError key) s
  end.

(** [self.people[key] = a] *)
Definition people_setitem (key : string) (a : addr) : M unit := λ s,
  (Return tt, mkNetwork (heap s) (dict_set (people s) key a), []).

(** [self.people.items()] *)
Definition people_items : M (list (string * addr)) := λ s,
  (Return (people s), s, []).

(** [f.name] *)
Definition friend_name (f : addr) : M string := q ← deref f; mret (name q).

(** [for x in l: body(x)] *)
Fixpoint for_ {A} (l : list A) (body : A → M unit) : M unit :=
  match l with
  | [] => mret tt
  | x :: l' => body x ;; for_ l' body
  end.

(** ** [class Person] *)

(** [Person.add_friend] *)
Definition add_friend (self friend : addr) : M unit :=
  if decide (friend = self) then mret tt
  else
    p ← deref self;
    if decide (friend ∉ friends p) then friends_append self friend
    else mret tt.

(** ** [class SocialNetwork] *)

(** [SocialNetwork()] in a store without objects. *)
Definition empty_network : SocialNetwork := mkNetwork [] [].

(** The three messages, as the f-strings build them. *)
Definition already_exists_msg (nm : string) : string :=
  "Person not added. " +:+ nm +:+ " already exists!".
Definition doesnt_exist_msg (nm : string) : string :=
  "Friendship not created. " +:+ nm +:+ " doesn't exist!".
Definition self_friend_msg : string :=
  "Friendship not created. A person cannot be friends with themselves!".

(** [SocialNetwork.add_person] *)
Definition add_person (nm : string) : M unit :=
  present ← people_contains nm;
  if present : bool then print (already_exists_msg nm)
  else
    p ← new_Person nm;
    people_setitem nm p.

(** [SocialNetwork.add_friendship] *)
Definition add_friendship (person1_name person2_name : string) : M unit :=
  has1 ← people_contains person1_name;
  if negb has1 then print (doesnt_exist_msg person1_name)
  else
    has2 ← people_contains person2_name;
    if negb has2 then print (doesnt_exist_msg person2_name)
    else if decide (person1_name = person2_name) then print self_friend_msg
    else
      p1 ← people_getitem person1_name;
      p2 ← people_getitem person2_name;
      add_friend p1 p2;;
      add_friend p2 p1.

(** [list.sort()] on a list of strings.  Python's sort returns the
    ascending rearrangement of the list; on strings, where elements that
    compare equal are equal, that rearrangement is unique, and the merge
    sort below computes it. *)
Definition sort (l : list string) : list string := merge_sort String.le l.

(** [", ".join(friend_names) if friend_names else "(no friends yet)"] *)
Definition friends_str (friend_names : list string) : string :=
  match friend_names with
  | [] => "(no friends yet)"
  | _ :: _ => String.concat ", " friend_names
  end.

(** The body of the loop of [print_network]; [friend_names] is a new list
    built by the comprehension, and it is this list that is sorted. *)
Definition print_person (item : string * addr) : M unit :=
  person ← deref item.2;
  friend_names ← mapM friend_name (friends person);
  let friend_names := sort friend_names in
  print (name person +:+ " is friends with: " +:+ friends_str friend_names).

(** [SocialNetwork.print_network] *)
Definition print_network : M unit :=
  items ← people_items;
  for_ items print_person.

(** ** Histories of calls *)

Inductive call :=
  | AddPerson (nm : string)
  | AddFriendship (person1_name person2_name : string)
  | PrintNetwork.

Definition do_call (c : call) : M unit :=
  match c with
  | AddPerson nm => add_person nm
  | AddFriendship n1 n2 => add_friendship n1 n2
  | PrintNetwork => print_network
  end.

(** The state a network is in after a history of calls on a new network. *)
Definition state_from (s : SocialNetwork) (cs : list call) : SocialNetwork :=
  fold_left (λ s c, exec (do_call c) s) cs s.
Definition state_after (cs : list call) : SocialNetwork :=
  state_from empty_network cs.

(** The six people and eight friendships of the script under
    [if __name__ == "__main__"]. *)
Definition demo_calls : list call :=
  [ AddPerson "Alex"; AddPerson "Jordan"; AddPerson "Morgan";
    AddPerson "Taylor"; AddPerson "Casey"; AddPerson "Riley";
    AddFriendship "Alex" "Jordan"; AddFriendship "Alex" "Morgan";
    AddFriendship "Jordan" "Taylor"; AddFriendship "Morgan" "Casey";
    AddFriendship "Taylor" "Riley"; AddFriendship "Casey" "Riley";
    AddFriendship "Morgan" "Riley"; AddFriendship "Alex" "Taylor" ].

(** ** Reading a state *)

(** The object at [a] exists and is called [nm]. *)
Definition named (s : SocialNetwork) (a : addr) (nm : string) : Prop :=
  ∃ p, heap s !! a = Some p ∧ name p = nm.

(** The object at [a] exists and has [b] in its friends list. *)
Definition lists (s : SocialNetwork) (a b : addr) : Prop :=
  ∃ p, heap s !! a = Some p ∧ b ∈ friends p.

(** [a.friends.append(b)] and [b.friends.append(a)] on the objects [pa]
    and [pb], as a state. *)
Definition linked (s : SocialNetwork) (a b : addr) (pa pb : Person)
  : SocialNetwork :=
  mkNetwork
    (<[b := mkPerson (name pb) (friends pb ++ [a])]>
       (<[a := mkPerson (name pa) (friends pa ++ [b])]> (heap s)))
    (people s).

(** What every state built by the methods satisfies. *)
Record wf (s : SocialNetwork) : Prop := {
  wf_keys : NoDup (people s).*1;
  wf_named : ∀ nm a, (nm, a) ∈ people s → named s a nm;
  wf_closed : ∀ a b, lists s a b → ∃ nm, (nm, b) ∈ people s;
  wf_sym : ∀ a b, lists s a b → lists s b a;
  wf_irrefl : ∀ a, ¬ lists s a a;
  wf_nodup : ∀ a p, heap s !! a = Some p → NoDup (friends p)
}.

(** The symmetry of friendships between registered people. *)
Definition symmetric (s : SocialNetwork) : Prop :=
  ∀ a b pa pb A B,
    dict_get (people s) a = Some pa → dict_get (people s) b = Some pb →
    heap s !! pa = Some A → heap s !! pb = Some B →
    pb ∈ friends A ↔ pa ∈ friends B.

(** ** The script *)

(** The line feed written [\n] in a Python string. *)
Definition LF : Ascii.ascii := Ascii.ascii_of_nat 10.

(** The statements under [if __name__ == "__main__"], on the network made
    by [network = SocialNetwork()]. *)
Definition main : M unit :=
  add_person "Alex";;
  add_person "Jordan";;
  add_person "Morgan";;
  add_person "Taylor";;
  add_person "Casey";;
  add_person "Riley";;
  add_person "Alex";;
  add_friendship "Alex" "Jordan";;
  add_friendship "Alex" "Morgan";;
  add_friendship "Jordan" "Taylor";;
  add_friendship "Morgan" "Casey";;
  add_friendship "Taylor" "Riley";;
  add_friendship "Casey" "Riley";;
  add_friendship "Morgan" "Riley";;
  add_friendship "Alex" "Taylor";;
  add_friendship "Jordan" "Johnny";;
  add_friendship "Alex" "Jordan";;
  add_friendship "Alex" "Alex";;
  print (String LF "--- Network ---");;
  print_network.

(** ** Further ways to read a state *)

(** [a] and [b] are registered and the person called [a] has the person
    called [b] in its friends list. *)
Definition friends_with (s : SocialNetwork) (a b : string) : Prop :=
  ∃ pa pb A,
    dict_get (people s) a = Some pa ∧ dict_get (people s) b = Some pb ∧
    heap s !! pa = Some A ∧ pb ∈ friends A.

(** [s'] has everything [s] has, where [s] has it: the registry of [s]
    starts the registry of [s'], and every object of [s] is an object of
    [s'] with the same name and a friends list that starts with the old
    one. *)
Definition grows (s s' : SocialNetwork) : Prop :=
  people s `prefix_of` people s' ∧
  ∀ a p, heap s !! a = Some p →
    ∃ p', heap s' !! a = Some p' ∧ name p' = name p ∧
          friends p `prefix_of` friends p'.

(** The names given to [add_person] in a history, in the order of the
    calls. *)
Definition added_names (cs : list call) : list string :=
  omap (λ c, match c with AddPerson nm => Some nm | _ => None end) cs.

(** The objects are the registered people, in the order of the registry:
    the names of the objects are the keys, and the addresses the registry
    holds are [0], [1], ... in this order. *)
Definition aligned (s : SocialNetwork) : Prop :=
  name <$> heap s = (people s).*1 ∧
  (people s).*2 = seq 0 (length (heap s)).

(** Two states hold the same graph: the same registry, the same names on
    the same objects and the same members in every friends list, in
    whatever order each list holds them. *)
Definition same_graph (s1 s2 : SocialNetwork) : Prop :=
  people s1 = people s2 ∧
  (∀ a nm, named s1 a nm ↔ named s2 a nm) ∧
  (∀ a b, lists s1 a b ↔ lists s2 a b).

(** The name of the object at [f], for an [f] that has an object. *)
Definition name_at (s : SocialNetwork) (f : addr) : string :=
  from_option name "" (heap s !! f).

(** [add_friendship(n1, n2)] asks for the edge between [x] and [y]: the
    names differ and are registered, for [x] and [y] in one order or the
    other. *)
Definition asked (s : SocialNetwork) (n1 n2 : string) (x y : addr) : Prop :=
  n1 ≠ n2 ∧
  ∃ a1 a2,
    dict_get (people s) n1 = Some a1 ∧ dict_get (people s) n2 = Some a2 ∧
    ((x = a1 ∧ y = a2) ∨ (x = a2 ∧ y = a1)).

(** * Properties *)

(** ** The dictionary *)

Lemma dict_get_Some d key a : dict_get d key = Some a → (key, a) ∈ d.
Proof.
  induction d as [|[k v] d IH]; simpl; [done|].
  case_decide; intros; simplify_eq; [left | right; auto].
Qed.

Lemma dict_get_None d key : dict_get d key = None ↔ key ∉ d.*1.
Proof.
  induction d as [|[k v] d IH]; simpl.
  - split; [intros _ ?%elem_of_nil | ]; done.
  - rewrite not_elem_of_cons. case_decide.
    + split; [done | by intros [? _]].
    + rewrite IH. split; [by split | by intros [_ ?]].
Qed.

Lemma dict_get_NoDup d key a :
  NoDup d.*1 → (key, a) ∈ d → dict_get d key = Some a.
Proof.
  induction d as [|[k v] d IH]; simpl; [by intros _ ?%elem_of_nil|].
  intros [Hk Hd]%NoDup_cons [?|Hin]%elem_of_cons; simplify_eq.
  - by rewrite decide_True.
  - rewrite decide_False; [auto|].
    intros ->. apply Hk. apply (list_elem_of_fmap_2 fst) in Hin. done.
Qed.

Lemma dict_set_fresh d key v :
  dict_get d key = None → dict_set d key v = d ++ [(key, v)].
Proof.
  induction d as [|[k w] d IH]; simpl; [done|].
  case_decide; [done|]. intros. by rewrite IH.
Qed.

Lemma dict_get_app_fresh d key v :
  dict_get d key = None → dict_get (d ++ [(key, v)]) key = Some v.
Proof.
  induction d as [|[k w] d IH]; simpl.
  - by rewrite decide_True.
  - case_decide; [done | auto].
Qed.

(** ** How each method runs *)

Ltac unfold_M :=
  unfold mbind, M_bind, mret, M_ret, raise, print, people_contains,
    people_getitem, people_setitem, people_items, new_Person, deref,
    friends_append; simpl.

Lemma add_person_present s nm a :
  dict_get (people s) nm = Some a →
  add_person nm s = (Return tt, s, [already_exists_msg nm]).
Proof.
  intros Hget. unfold add_person. unfold_M.
  rewrite bool_decide_true; [done | by rewrite Hget].
Qed.

Lemma add_person_fresh s nm :
  dict_get (people s) nm = None →
  add_person nm s =
    (Return tt,
     mkNetwork (heap s ++ [mkPerson nm []])
               (people s ++ [(nm, length (heap s))]), []).
Proof.
  intros Hget. unfold add_person. unfold_M.
  rewrite bool_decide_false; [| rewrite Hget; by intros [? ?]].
  by rewrite dict_set_fresh.
Qed.

Lemma add_friend_same s self : add_friend self self s = (Return tt, s, []).
Proof. unfold add_friend. by rewrite decide_True. Qed.

Lemma add_friend_present s self friend p :
  heap s !! self = Some p → friend ∈ friends p →
  add_friend self friend s = (Return tt, s, []).
Proof.
  intros Hp Hin. unfold add_friend. case_decide; [done|].
  unfold_M. rewrite Hp. simpl. rewrite decide_False; [done | tauto].
Qed.

Lemma add_friend_new s self friend p :
  heap s !! self = Some p → friend ≠ self → friend ∉ friends p →
  add_friend self friend s =
    (Return tt,
     mkNetwork (<[self := mkPerson (name p) (friends p ++ [friend])]> (heap s))
               (people s), []).
Proof.
  intros Hp Hne Hin. unfold add_friend. rewrite decide_False by done.
  unfold_M. rewrite Hp. simpl. rewrite decide_True by done.
  by rewrite Hp.
Qed.

Lemma add_friend_dangling s self friend :
  heap s !! self = None → friend ≠ self →
  add_friend self friend s = (Raise (BadReference self), s, []).
Proof.
  intros Hp Hne. unfold add_friend. rewrite decide_False by done.
  unfold_M. by rewrite Hp.
Qed.

Lemma add_friendship_unknown1 s n1 n2 :
  dict_get (people s) n1 = None →
  add_friendship n1 n2 s = (Return tt, s, [doesnt_exist_msg n1]).
Proof.
  intros H1. unfold add_friendship. unfold_M.
  rewrite bool_decide_false; [done | rewrite H1; by intros [? ?]].
Qed.

Lemma add_friendship_unknown2 s n1 n2 :
  is_Some (dict_get (people s) n1) → dict_get (people s) n2 = None →
  add_friendship n1 n2 s = (Return tt, s, [doesnt_exist_msg n2]).
Proof.
  intros H1 H2. unfold add_friendship. unfold_M.
  rewrite bool_decide_true by done. simpl.
  rewrite bool_decide_false; [done | rewrite H2; by intros [? ?]].
Qed.

Lemma add_friendship_self s nm :
  is_Some (dict_get (people s) nm) →
  add_friendship nm nm s = (Return tt, s, [self_friend_msg]).
Proof.
  intros H1. unfold add_friendship. unfold_M.
  do 2 (rewrite bool_decide_true by done; simpl). by rewrite decide_True.
Qed.

Lemma add_friendship_both s n1 n2 a1 a2 :
  dict_get (people s) n1 = Some a1 → dict_get (people s) n2 = Some a2 →
  n1 ≠ n2 →
  add_friendship n1 n2 s = (add_friend a1 a2 ;; add_friend a2 a1) s.
Proof.
  intros H1 H2 Hne. unfold add_friendship. unfold_M.
  do 2 (rewrite bool_decide_true by (by rewrite ?H1, ?H2); simpl).
  rewrite decide_False by done. rewrite H1. simpl. rewrite H2. simpl.
  destruct (add_friend a1 a2 s) as [[[[]|e] s1] o1]; simpl; [|done].
  destruct (add_friend a2 a1 s1) as [[r2 s2] o2]. done.
Qed.

(** ** The invariant *)

Lemma wf_empty : wf empty_network.
Proof.
  split; simpl.
  - constructor.
  - by intros ?? ?%elem_of_nil.
  - by intros ?? (? & ? & _).
  - by intros ?? (? & ? & _).
  - by intros ? (? & ? & _).
  - done.
Qed.

Lemma wf_get s nm a :
  wf s → dict_get (people s) nm = Some a → named s a nm.
Proof. intros Hwf Hget. by apply (wf_named s Hwf), dict_get_Some. Qed.

Lemma wf_get_inj s n1 n2 a :
  wf s → dict_get (people s) n1 = Some a → dict_get (people s) n2 = Some a →
  n1 = n2.
Proof.
  intros Hwf (p1 & Hp1 & <-)%wf_get (p2 & Hp2 & <-)%wf_get; [|done..].
  congruence.
Qed.

(** *** Registering a new person *)

Section add_person_fresh.
Context (s : SocialNetwork) (nm : string).
Let s' := mkNetwork (heap s ++ [mkPerson nm []])
                    (people s ++ [(nm, length (heap s))]).

Lemma fresh_lookup a p :
  heap s' !! a = Some p ↔
  heap s !! a = Some p ∨ (a = length (heap s) ∧ p = mkPerson nm []).
Proof.
  simpl. rewrite lookup_app_Some, list_lookup_singleton_Some.
  split; [intros [?|(? & ? & ?)] | intros [?|[-> ->]]]; auto.
  - right. split; [lia | done].
  - right. split_and!; [lia.. | done].
Qed.

Lemma fresh_lists a b : lists s' a b ↔ lists s a b.
Proof.
  unfold lists. split; intros (p & Hp & Hin).
  - apply fresh_lookup in Hp as [Hp|[_ ->]]; [eauto|].
    by apply elem_of_nil in Hin.
  - exists p. split; [apply fresh_lookup; auto | done].
Qed.

Lemma fresh_named a n :
  named s' a n ↔ named s a n ∨ (a = length (heap s) ∧ n = nm).
Proof.
  unfold named. split.
  - intros (p & [Hp|[-> ->]]%fresh_lookup & Hn); eauto.
  - intros [(p & Hp & Hn)|[-> ->]].
    + exists p. split; [apply fresh_lookup; auto | done].
    + exists (mkPerson nm []). split; [apply fresh_lookup; auto | done].
Qed.

Lemma wf_fresh : wf s → dict_get (people s) nm = None → wf s'.
Proof.
  intros Hwf Hnew. split.
  - simpl. rewrite fmap_app. simpl. apply NoDup_app. split_and!.
    + apply Hwf.
    + intros x Hx ->%list_elem_of_singleton. by apply dict_get_None in Hnew.
    + apply NoDup_singleton.
  - intros n a [Hin|[= -> ->]%list_elem_of_singleton]%elem_of_app.
    + apply fresh_named. left. by apply Hwf.
    + apply fresh_named. by right.
  - intros a b Hl%fresh_lists. destruct (wf_closed s Hwf a b Hl) as [n Hn].
    exists n. simpl. apply elem_of_app. by left.
  - intros a b Hl%fresh_lists. apply fresh_lists. by apply Hwf.
  - intros a Hl%fresh_lists. by apply (wf_irrefl s Hwf a).
  - intros a p [Hp|[_ ->]]%fresh_lookup.
    + by apply (wf_nodup s Hwf a).
    + constructor.
Qed.
End add_person_fresh.

(** *** A new friendship *)

Section linked.
Context (s : SocialNetwork) (a1 a2 : addr) (P1 P2 : Person).
Context (H1 : heap s !! a1 = Some P1) (H2 : heap s !! a2 = Some P2).
Context (Hne : a1 ≠ a2).
Let s' := linked s a1 a2 P1 P2.

Lemma linked_lookup a p :
  heap s' !! a = Some p ↔
    (a = a1 ∧ p = mkPerson (name P1) (friends P1 ++ [a2])) ∨
    (a = a2 ∧ p = mkPerson (name P2) (friends P2 ++ [a1])) ∨
    (a ≠ a1 ∧ a ≠ a2 ∧ heap s !! a = Some p).
Proof.
  pose proof (lookup_lt_Some _ _ _ H1). pose proof (lookup_lt_Some _ _ _ H2).
  simpl. rewrite !list_lookup_insert_Some, !length_insert. split.
  - intros [(<- & <- & _)|(? & [(<- & <- & _)|(? & ?)])]; auto 10.
  - intros [[-> ->]|[[-> ->]|(? & ? & ?)]]; auto 10.
Qed.

Lemma linked_named a n : named s' a n ↔ named s a n.
Proof.
  unfold named. split.
  - intros (p & [[-> ->]|[[-> ->]|(_ & _ & Hp)]]%linked_lookup & Hn); eauto.
  - intros (p & Hp & Hn). destruct (decide (a = a1)) as [->|];
      [|destruct (decide (a = a2)) as [->|]]; simplify_eq.
    + eexists. split; [apply linked_lookup; left; done | done].
    + eexists. split; [apply linked_lookup; right; left; done | done].
    + exists p. split; [apply linked_lookup; auto | done].
Qed.

Lemma linked_lists a b :
  lists s' a b ↔ lists s a b ∨ (a = a1 ∧ b = a2) ∨ (a = a2 ∧ b = a1).
Proof.
  unfold lists. split.
  - intros (p & [[-> ->]|[[-> ->]|(_ & _ & Hp)]]%linked_lookup & Hin);
      simpl in Hin; [| |by eauto].
    + apply elem_of_app in Hin as [?| ->%list_elem_of_singleton]; eauto.
    + apply elem_of_app in Hin as [?| ->%list_elem_of_singleton]; eauto.
  - intros Hcases. destruct (decide (a = a1)) as [->|];
      [|destruct (decide (a = a2)) as [->|]].
    + eexists. split; [apply linked_lookup; left; done|]. simpl.
      apply elem_of_app.
      destruct Hcases as [(p & ? & ?)|[[_ ->]|[? _]]]; simplify_eq;
        [by left | right; by apply list_elem_of_singleton].
    + eexists. split; [apply linked_lookup; right; left; done|]. simpl.
      apply elem_of_app.
      destruct Hcases as [(p & ? & ?)|[[? _]|[_ ->]]]; simplify_eq;
        [by left | right; by apply list_elem_of_singleton].
    + destruct Hcases as [(p & ? & ?)|[[? _]|[? _]]]; [|done..].
      exists p. split; [apply linked_lookup; auto | done].
Qed.

Lemma wf_linked :
  wf s → a2 ∉ friends P1 → a1 ∉ friends P2 →
  (∃ n1, (n1, a1) ∈ people s) → (∃ n2, (n2, a2) ∈ people s) → wf s'.
Proof.
  intros Hwf Hn1 Hn2 Hr1 Hr2. split.
  - apply Hwf.
  - intros n a Hin. apply linked_named. by apply Hwf.
  - intros a b [Hl|[[_ ->]|[_ ->]]]%linked_lists; [|done..].
    by apply (wf_closed s Hwf a b).
  - intros a b Hl%linked_lists. apply linked_lists.
    destruct Hl as [Hl|[[-> ->]|[-> ->]]]; [left; by apply Hwf | auto..].
  - intros a [Hl|[[? ?]|[? ?]]]%linked_lists; [|congruence..].
    by apply (wf_irrefl s Hwf a).
  - intros a p [[-> ->]|[[-> ->]|(_ & _ & Hp)]]%linked_lookup; simpl.
    + apply NoDup_app. split_and!; [by apply (wf_nodup s Hwf a1) | |].
      * by intros x ? ->%list_elem_of_singleton.
      * apply NoDup_singleton.
    + apply NoDup_app. split_and!; [by apply (wf_nodup s Hwf a2) | |].
      * by intros x ? ->%list_elem_of_singleton.
      * apply NoDup_singleton.
    + by apply (wf_nodup s Hwf a).
Qed.

Lemma add_friends_new :
  a2 ∉ friends P1 → a1 ∉ friends P2 →
  (add_friend a1 a2 ;; add_friend a2 a1) s = (Return tt, s', []).
Proof.
  intros Hn1 Hn2. unfold mbind, M_bind.
  rewrite (add_friend_new s a1 a2 P1) by done.
  erewrite add_friend_new; [done | | done..].
  simpl. by rewrite list_lookup_insert_ne.
Qed.

Lemma add_friends_old :
  a2 ∈ friends P1 → a1 ∈ friends P2 →
  (add_friend a1 a2 ;; add_friend a2 a1) s = (Return tt, s, []).
Proof.
  intros Hn1 Hn2. unfold mbind, M_bind.
  rewrite (add_friend_present s a1 a2 P1) by done.
  by rewrite (add_friend_present s a2 a1 P2) by done.
Qed.
End linked.

(** *** [add_friendship] on two registered people *)

Lemma add_friendship_registered s n1 n2 a1 a2 :
  wf s →
  dict_get (people s) n1 = Some a1 → dict_get (people s) n2 = Some a2 →
  n1 ≠ n2 →
  ∃ P1 P2,
    heap s !! a1 = Some P1 ∧ heap s !! a2 = Some P2 ∧ a1 ≠ a2 ∧
    ((a2 ∈ friends P1 ∧ a1 ∈ friends P2 ∧
      add_friendship n1 n2 s = (Return tt, s, [])) ∨
     ((a2 ∉ friends P1) ∧ (a1 ∉ friends P2) ∧
      add_friendship n1 n2 s = (Return tt, linked s a1 a2 P1 P2, []))).
Proof.
  intros Hwf Hg1 Hg2 Hne.
  destruct (wf_get s n1 a1 Hwf Hg1) as (P1 & HP1 & Hnm1).
  destruct (wf_get s n2 a2 Hwf Hg2) as (P2 & HP2 & Hnm2).
  assert (a1 ≠ a2) as Hna by (intros ->; apply Hne; by eapply wf_get_inj).
  exists P1, P2. split_and!; [done..|].
  rewrite (add_friendship_both s n1 n2 a1 a2) by done.
  destruct (decide (a2 ∈ friends P1)) as [Hin|Hnin].
  - assert (a1 ∈ friends P2) as Hin'.
    { destruct (wf_sym s Hwf a1 a2) as (P & HP & ?); [by exists P1|].
      by simplify_eq. }
    left. split_and!; [done..|]. by apply (add_friends_old s a1 a2 P1 P2).
  - assert (a1 ∉ friends P2) as Hnin'.
    { intros Hin. apply Hnin.
      destruct (wf_sym s Hwf a2 a1) as (P & HP & ?); [by exists P2|].
      by simplify_eq. }
    right. split_and!; [done..|]. by apply (add_friends_new s a1 a2 P1 P2).
Qed.

(** *** [print_network] *)

Lemma bind_run {A B} (m : M A) (f : A → M B) s :
  (m ≫= f) s =
    match m s with
    | (Return a, s', out) =>
        match f a s' with (r, s'', out') => (r, s'', out ++ out') end
    | (Raise e, s', out) => (Raise e, s', out)
    end.
Proof. done. Qed.

Lemma friend_name_run f s :
  friend_name f s =
    match heap s !! f with
    | Some q => (Return (name q), s, [])
    | None => (Raise (BadReference f), s, [])
    end.
Proof. unfold friend_name. unfold_M. by destruct (heap s !! f). Qed.

Lemma friend_names_cons f l :
  mapM friend_name (f :: l) =
    nm ← friend_name f; names ← mapM friend_name l; mret (nm :: names).
Proof. done. Qed.

Lemma friend_names_state l s : ∃ r, mapM friend_name l s = (r, s, []).
Proof.
  induction l as [|f l [r IH]]; [by eexists|].
  rewrite friend_names_cons, bind_run, friend_name_run.
  destruct (heap s !! f) as [q|]; [|by eexists].
  rewrite bind_run, IH. destruct r; by eexists.
Qed.

Lemma friend_names_run l names s :
  Forall2 (named s) l names → mapM friend_name l s = (Return names, s, []).
Proof.
  induction 1 as [|f nm l names (q & Hq & <-) _ IH]; [done|].
  rewrite friend_names_cons, bind_run, friend_name_run, Hq.
  by rewrite bind_run, IH.
Qed.

Lemma print_person_state item s : ∃ r out, print_person item s = (r, s, out).
Proof.
  unfold print_person. rewrite bind_run. unfold deref.
  destruct (heap s !! item.2) as [p|]; [|by do 2 eexists].
  rewrite bind_run.
  destruct (friend_names_state (friends p) s) as [r ->].
  destruct r; by do 2 eexists.
Qed.

Lemma print_person_run key a p names s :
  heap s !! a = Some p → Forall2 (named s) (friends p) names →
  print_person (key, a) s =
    (Return tt, s,
     [name p +:+ " is friends with: " +:+ friends_str (sort names)]).
Proof.
  intros Hp Hnames%friend_names_run. unfold print_person.
  rewrite bind_run. unfold deref. simpl. rewrite Hp.
  by rewrite bind_run, Hnames.
Qed.

Lemma for_print_person_state items s :
  ∃ r out, for_ items print_person s = (r, s, out).
Proof.
  induction items as [|item items (r & out & IH)]; simpl; [by do 2 eexists|].
  unfold mbind, M_bind.
  destruct (print_person_state item s) as (r1 & out1 & ->).
  destruct r1; [|by do 2 eexists]. rewrite IH. by do 2 eexists.
Qed.

Lemma for_print_person_run items lines s :
  Forall2 (λ item line, print_person item s = (Return tt, s, [line]))
    items lines →
  for_ items print_person s = (Return tt, s, lines).
Proof.
  induction 1 as [|item line items lines Hrun _ IH]; simpl; [done|].
  unfold mbind, M_bind. by rewrite Hrun, IH.
Qed.

Lemma print_network_state s : exec print_network s = s.
Proof.
  unfold exec, print_network. unfold_M.
  destruct (for_print_person_state (people s) s) as (r & out & ->). done.
Qed.

(** In a state of the invariant every friends list has its list of names. *)
Lemma wf_friend_names s a p :
  wf s → heap s !! a = Some p →
  ∃ names, Forall2 (named s) (friends p) names.
Proof.
  intros Hwf Hp.
  assert (Forall (λ f, ∃ nm, named s f nm) (friends p)) as Hall.
  { apply Forall_forall. intros f Hf.
    destruct (wf_closed s Hwf a f) as [nm Hnm]; [by exists p|].
    exists nm. by apply Hwf. }
  clear Hp. induction Hall as [|f l [nm Hnm] _ [names IH]].
  - by exists [].
  - exists (nm :: names). by constructor.
Qed.

(** *** Every call keeps the invariant and returns *)

Lemma add_person_wf s nm :
  wf s → wf (exec (add_person nm) s) ∧ result (add_person nm) s = Return tt.
Proof.
  intros Hwf. unfold exec, result.
  destruct (dict_get (people s) nm) as [a|] eqn:Hget.
  - by rewrite (add_person_present s nm a).
  - rewrite add_person_fresh by done. split; [by apply wf_fresh | done].
Qed.

Lemma add_friendship_wf s n1 n2 :
  wf s →
  wf (exec (add_friendship n1 n2) s) ∧
  result (add_friendship n1 n2) s = Return tt.
Proof.
  intros Hwf. unfold exec, result.
  destruct (dict_get (people s) n1) as [a1|] eqn:Hg1;
    [|by rewrite add_friendship_unknown1].
  destruct (dict_get (people s) n2) as [a2|] eqn:Hg2;
    [|by rewrite add_friendship_unknown2].
  destruct (decide (n1 = n2)) as [->|Hne]; [by rewrite add_friendship_self|].
  destruct (add_friendship_registered s n1 n2 a1 a2)
    as (P1 & P2 & HP1 & HP2 & Hna & [(_ & _ & ->)|(? & ? & ->)]); [done..|].
  split; [|done]. simpl.
  apply wf_linked; eauto using dict_get_Some.
Qed.

Lemma print_network_run s :
  wf s →
  ∃ lines, print_network s = (Return tt, s, lines) ∧
    Forall2 (λ item line, ∃ p names,
      heap s !! item.2 = Some p ∧ name p = item.1 ∧
      Forall2 (named s) (friends p) names ∧
      line = item.1 +:+ " is friends with: " +:+ friends_str (sort names))
    (people s) lines.
Proof.
  intros Hwf. unfold print_network. unfold_M.
  assert (∃ lines, Forall2 (λ item line, ∃ p names,
      heap s !! item.2 = Some p ∧ name p = item.1 ∧
      Forall2 (named s) (friends p) names ∧
      line = item.1 +:+ " is friends with: " +:+ friends_str (sort names))
    (people s) lines) as [lines Hlines].
  { assert (Forall (λ item, named s item.2 item.1) (people s)) as Hall.
    { apply Forall_forall. intros [nm a] Hin. by apply Hwf. }
    induction Hall as [|[nm a] items (p & Hp & Hnm) _ [lines IH]].
    - by exists [].
    - destruct (wf_friend_names s a p Hwf Hp) as [names Hnames].
      eexists (_ :: lines). constructor; [|done].
      exists p, names. simpl in *. done. }
  exists lines. split; [|done].
  rewrite (for_print_person_run (people s) lines); [done|].
  eapply Forall2_impl; [done|].
  intros [nm a] line (p & names & Hp & <- & Hnames & ->).
  by apply print_person_run.
Qed.

Lemma do_call_wf s c :
  wf s → wf (exec (do_call c) s) ∧ result (do_call c) s = Return tt.
Proof.
  intros Hwf. destruct c as [nm|n1 n2|]; simpl.
  - by apply add_person_wf.
  - by apply add_friendship_wf.
  - rewrite print_network_state. split; [done|].
    destruct (print_network_run s Hwf) as (lines & Hrun & _).
    unfold result. by rewrite Hrun.
Qed.

Lemma state_from_wf cs : ∀ s, wf s → wf (state_from s cs).
Proof.
  induction cs as [|c cs IH]; intros s Hwf; simpl; [done|].
  apply IH. by apply do_call_wf.
Qed.

Lemma state_after_wf cs : wf (state_after cs).
Proof. apply state_from_wf, wf_empty. Qed.

(** * The claims *)

(** C1. [print_network] prints exactly one line per registered person, in
    the insertion order of the registry.  The line of a person reads
    [<name> is friends with: ] followed by the names of the person's
    friends in ascending lexicographic order, joined by [", "], or by
    [(no friends yet)] when the friends list is empty.  For the six people
    and eight friendships of the demonstration the six lines are the ones
    listed. *)
Theorem print_network_report (cs : list call) :
  (let s := state_after cs in
   ∃ lines,
     print_network s = (Return tt, s, lines) ∧
     Forall2 (λ item line, ∃ p stored sorted,
       heap s !! item.2 = Some p ∧ name p = item.1 ∧
       Forall2 (named s) (friends p) stored ∧
       sorted ≡ₚ stored ∧ Sorted String.le sorted ∧
       (friends p = [] →
        line = item.1 +:+ " is friends with: (no friends yet)") ∧
       (friends p ≠ [] →
        line = item.1 +:+ " is friends with: " +:+ String.concat ", " sorted))
     (people s) lines) ∧
  (people (state_after demo_calls)).*1 =
    ["Alex"; "Jordan"; "Morgan"; "Taylor"; "Casey"; "Riley"] ∧
  print_network (state_after demo_calls) =
    (Return tt, state_after demo_calls,
     ["Alex is friends with: Jordan, Morgan, Taylor";
      "Jordan is friends with: Alex, Taylor";
      "Morgan is friends with: Alex, Casey, Riley";
      "Taylor is friends with: Alex, Jordan, Riley";
      "Casey is friends with: Morgan, Riley";
      "Riley is friends with: Casey, Morgan, Taylor"]).
Proof.
  split; [|split; vm_compute; reflexivity].
  intros s. destruct (print_network_run s (state_after_wf cs))
    as (lines & Hrun & Hlines).
  exists lines. split; [done|].
  eapply Forall2_impl; [done|].
  intros [nm a] line (p & stored & Hp & Hnm & Hstored & ->).
  exists p, stored, (sort stored). split_and!; try done.
  - apply merge_sort_Permutation.
  - apply (Sorted_merge_sort _).
  - intros Hnil. rewrite Hnil in Hstored.
    by apply Forall2_nil_inv_l in Hstored as ->.
  - intros Hcons. unfold friends_str.
    destruct (sort stored) as [|x l] eqn:Hsort; [|done].
    assert (stored = []) as ->.
    { apply Permutation_nil_r. rewrite <- Hsort. unfold sort.
      by rewrite merge_sort_Permutation. }
    apply Forall2_nil_inv_r in Hstored. done.
Qed.

Lemma wf_symmetric s : wf s → symmetric s.
Proof.
  intros Hwf a b pa pb A B _ _ HA HB. split; intros Hin.
  - destruct (wf_sym s Hwf pa pb) as (B' & ? & ?); [by exists A|].
    by simplify_eq.
  - destruct (wf_sym s Hwf pb pa) as (A' & ? & ?); [by exists B|].
    by simplify_eq.
Qed.

(** C2. In every state reached from the empty network by calls of the
    methods, for registered [a] and [b], [b] is in the friends list of [a]
    if and only if [a] is in the friends list of [b]; and every further
    call, whatever its branch, leads to a state with the same property. *)
Theorem friendship_symmetric (cs : list call) :
  symmetric (state_after cs) ∧
  ∀ c, symmetric (exec (do_call c) (state_after cs)).
Proof.
  split; [apply wf_symmetric, state_after_wf|].
  intros c. apply wf_symmetric, do_call_wf, state_after_wf.
Qed.

Lemma friendship_symmetric_witness :
  3 ∈ friends (mkPerson "Alex" [1; 2; 3]) ↔
  0 ∈ friends (mkPerson "Taylor" [1; 5; 0]).
Proof.
  apply (proj1 (friendship_symmetric demo_calls) "Alex" "Taylor" 0 3);
    reflexivity.
Defined.

(** C3. With two distinct registered names, calling [add_friendship] a
    second time returns without printing and leaves the state of the
    first call as it is, friends lists and their order included. *)
Theorem add_friendship_idempotent (cs : list call) (a b : string) :
  let s := state_after cs in
  a ≠ b →
  is_Some (dict_get (people s) a) → is_Some (dict_get (people s) b) →
  let s1 := exec (add_friendship a b) s in
  result (add_friendship a b) s = Return tt ∧
  output (add_friendship a b) s = [] ∧
  add_friendship a b s1 = (Return tt, s1, []).
Proof.
  intros s Hne [pa Ha] [pb Hb] s1. subst s1.
  pose proof (state_after_wf cs) as Hwf. fold s in Hwf.
  unfold result, output, exec.
  destruct (add_friendship_registered s a b pa pb)
    as (A & B & HA & HB & Hna & [(? & ? & Hrun)|(HnA & HnB & Hrun)]);
    [done..| |]; rewrite Hrun; simpl; [done|].
  split_and!; [done..|].
  assert (wf (linked s pa pb A B)) as Hwf'.
  { apply wf_linked; eauto using dict_get_Some. }
  destruct (add_friendship_registered (linked s pa pb A B) a b pa pb)
    as (A' & B' & HA' & HB' & _ & [(_ & _ & Hrun')|(HnA' & _ & _)]);
    [done..|].
  exfalso. apply HnA'.
  apply (linked_lookup s pa pb A B) in HA' as [[_ ->]|[[? _]|(? & _)]];
    [|done..].
  simpl. apply elem_of_app. right. by apply list_elem_of_singleton.
Qed.

Lemma add_friendship_idempotent_witness :
  let s1 := exec (add_friendship "Alex" "Jordan")
              (state_after [AddPerson "Alex"; AddPerson "Jordan"]) in
  add_friendship "Alex" "Jordan" s1 = (Return tt, s1, []).
Proof.
  apply (add_friendship_idempotent [AddPerson "Alex"; AddPerson "Jordan"]
           "Alex" "Jordan").
  - vm_compute. discriminate.
  - by eexists.
  - by eexists.
Defined.

Lemma filter_key_fresh d key :
  key ∉ d.*1 → filter (λ item : string * addr, item.1 = key) d = [].
Proof.
  induction d as [|[k v] d IH]; simpl; [done|].
  intros [Hk Hd]%not_elem_of_cons. rewrite filter_cons_False; auto.
Qed.

Lemma count_key d key :
  NoDup d.*1 → key ∈ d.*1 →
  length (filter (λ item : string * addr, item.1 = key) d) = 1.
Proof.
  induction d as [|[k v] d IH]; simpl; [by intros _ ?%elem_of_nil|].
  intros [Hk Hd]%NoDup_cons Hin. rewrite filter_cons. simpl.
  case_decide as Heq; simpl.
  - subst k. by rewrite filter_key_fresh.
  - apply elem_of_cons in Hin as [?|Hin]; [congruence | auto].
Qed.

(** C4. Calling [add_person] twice with the same name leaves exactly one
    entry for the name in the registry.  When the name was new, the first
    call prints nothing and registers a new person with an empty friends
    list, at the end of the registry.  The second call returns normally,
    prints the "already exists" message and changes nothing. *)
Theorem add_person_twice (cs : list call) (x : string) :
  let s := state_after cs in
  let s1 := exec (add_person x) s in
  result (add_person x) s = Return tt ∧
  add_person x s1 = (Return tt, s1, [already_exists_msg x]) ∧
  length (filter (λ item, item.1 = x) (people s1)) = 1 ∧
  (dict_get (people s) x = None →
   output (add_person x) s = [] ∧
   heap s1 = heap s ++ [mkPerson x []] ∧
   people s1 = people s ++ [(x, length (heap s))]).
Proof.
  intros s s1.
  pose proof (state_after_wf cs) as Hwf. fold s in Hwf.
  destruct (add_person_wf s x Hwf) as [Hwf1 Hres]. fold s1 in Hwf1.
  assert (is_Some (dict_get (people s1) x)) as [a Ha].
  { subst s1. unfold exec.
    destruct (dict_get (people s) x) as [a|] eqn:Hget.
    - rewrite (add_person_present s x a) by done. simpl. by rewrite Hget.
    - rewrite add_person_fresh by done. simpl.
      by rewrite dict_get_app_fresh. }
  split_and!.
  - done.
  - by apply (add_person_present s1 x a).
  - apply count_key; [apply Hwf1|].
    apply dict_get_Some in Ha. by apply (list_elem_of_fmap_2 fst) in Ha.
  - intros Hnew. subst s1. unfold output, exec.
    by rewrite add_person_fresh.
Qed.

Lemma add_friend_output self friend s : output (add_friend self friend) s = [].
Proof.
  unfold output, add_friend. case_decide; [done|].
  rewrite bind_run. unfold deref.
  destruct (heap s !! self) as [p|] eqn:Hp; [|done].
  case_decide; [|done]. unfold friends_append. by rewrite Hp.
Qed.

Lemma add_friendship_output s a b :
  output (add_friendship a b) s ≠ [] →
  exec (add_friendship a b) s = s ∧
  output (add_friendship a b) s ∈
    [[doesnt_exist_msg a]; [doesnt_exist_msg b]; [self_friend_msg]].
Proof.
  unfold output, exec.
  destruct (dict_get (people s) a) as [pa|] eqn:Ha.
  2:{ rewrite add_friendship_unknown1 by done. intros _. split; [done|].
      simpl. left. }
  destruct (dict_get (people s) b) as [pb|] eqn:Hb.
  2:{ rewrite add_friendship_unknown2 by done. intros _. split; [done|].
      simpl. right; left. }
  destruct (decide (a = b)) as [->|Hne].
  { rewrite add_friendship_self by done. intros _. split; [done|].
    simpl. right; right; left. }
  rewrite (add_friendship_both s a b pa pb) by done. rewrite bind_run.
  pose proof (add_friend_output pa pb s) as Ho1. unfold output in Ho1.
  destruct (add_friend pa pb s) as [[[[]|e] s1] o1]; simpl in *; [|done].
  pose proof (add_friend_output pb pa s1) as Ho2. unfold output in Ho2.
  destruct (add_friend pb pa s1) as [[r2 s2] o2]; simpl in *.
  by rewrite Ho1, Ho2.
Qed.

(** C5. A call of [add_person] or [add_friendship] that prints a message
    leaves the registry and every friends list as they were.  A call of
    [add_friendship] either changes nothing or appends each of the two
    people to the friends list of the other; it never adds one direction
    alone. *)
Theorem diagnostics_change_nothing
    (s : SocialNetwork) (cs : list call) (nm a b : string) :
  (output (add_person nm) s ≠ [] →
   output (add_person nm) s = [already_exists_msg nm] ∧
   exec (add_person nm) s = s) ∧
  (output (add_friendship a b) s ≠ [] →
   exec (add_friendship a b) s = s ∧
   output (add_friendship a b) s ∈
     [[doesnt_exist_msg a]; [doesnt_exist_msg b]; [self_friend_msg]]) ∧
  (let r := state_after cs in
   let r' := exec (add_friendship a b) r in
   r' = r ∨
   ∃ pa pb A B,
     dict_get (people r) a = Some pa ∧ dict_get (people r) b = Some pb ∧
     heap r !! pa = Some A ∧ heap r !! pb = Some B ∧ pa ≠ pb ∧
     output (add_friendship a b) r = [] ∧
     people r' = people r ∧
     heap r' !! pa = Some (mkPerson (name A) (friends A ++ [pb])) ∧
     heap r' !! pb = Some (mkPerson (name B) (friends B ++ [pa])) ∧
     ∀ c, c ≠ pa → c ≠ pb → heap r' !! c = heap r !! c).
Proof.
  split_and!.
  - unfold output, exec.
    destruct (dict_get (people s) nm) as [p|] eqn:Hget.
    + by rewrite (add_person_present s nm p).
    + by rewrite add_person_fresh.
  - apply add_friendship_output.
  - intros r r'. subst r'.
    pose proof (state_after_wf cs) as Hwf. fold r in Hwf.
    unfold exec, output.
    destruct (dict_get (people r) a) as [pa|] eqn:Ha;
      [|left; by rewrite add_friendship_unknown1].
    destruct (dict_get (people r) b) as [pb|] eqn:Hb;
      [|left; by rewrite add_friendship_unknown2].
    destruct (decide (a = b)) as [->|Hne];
      [left; by rewrite add_friendship_self|].
    destruct (add_friendship_registered r a b pa pb)
      as (A & B & HA & HB & Hna & [(_ & _ & ->)|(_ & _ & ->)]);
      [done..|by left|].
    right. exists pa, pb, A, B. split_and!; try done.
    + apply (linked_lookup r pa pb A B); auto.
    + apply (linked_lookup r pa pb A B); auto.
    + intros c ? ?. simpl. by rewrite !list_lookup_insert_ne.
Qed.

Lemma diagnostics_change_nothing_witness :
  let s := state_after [AddPerson "Alex"; AddPerson "Jordan"] in
  exec (add_friendship "Jordan" "Johnny") s = s ∧
  output (add_friendship "Jordan" "Johnny") s ∈
    [[doesnt_exist_msg "Jordan"]; [doesnt_exist_msg "Johnny"];
     [self_friend_msg]].
Proof.
  intros s.
  destruct (diagnostics_change_nothing s [] "Alex" "Jordan" "Johnny")
    as (_ & Hdiag & _).
  apply Hdiag. vm_compute. discriminate.
Defined.

(** C6. [add_friendship] checks, in this order, that the first name is
    registered, that the second name is registered, and that the two names
    differ; the first check that fails prints its message and ends the
    call.  With both names missing the message names the first; with one
    missing name given twice the message is that the name doesn't exist. *)
Theorem add_friendship_check_order (s : SocialNetwork) (a b : string) :
  (dict_get (people s) a = None →
   add_friendship a b s = (Return tt, s, [doesnt_exist_msg a])) ∧
  (is_Some (dict_get (people s) a) → dict_get (people s) b = None →
   add_friendship a b s = (Return tt, s, [doesnt_exist_msg b])) ∧
  (is_Some (dict_get (people s) a) → a = b →
   add_friendship a b s = (Return tt, s, [self_friend_msg])) ∧
  (dict_get (people s) a = None → dict_get (people s) b = None →
   add_friendship a b s = (Return tt, s, [doesnt_exist_msg a])) ∧
  (dict_get (people s) a = None →
   add_friendship a a s = (Return tt, s, [doesnt_exist_msg a])).
Proof.
  split_and!.
  - apply add_friendship_unknown1.
  - apply add_friendship_unknown2.
  - intros Ha <-. by apply add_friendship_self.
  - intros Ha _. by apply add_friendship_unknown1.
  - apply add_friendship_unknown1.
Qed.

Lemma add_friendship_check_order_witness :
  let s := state_after [AddPerson "Alex"; AddPerson "Jordan"] in
  add_friendship "Johnny" "Johnny" s =
    (Return tt, s, [doesnt_exist_msg "Johnny"]) ∧
  add_friendship "Jordan" "Johnny" s =
    (Return tt, s, [doesnt_exist_msg "Johnny"]) ∧
  add_friendship "Alex" "Alex" s = (Return tt, s, [self_friend_msg]).
Proof.
  intros s.
  destruct (add_friendship_check_order s "Johnny" "Johnny")
    as (_ & _ & _ & _ & Hmissing).
  destruct (add_friendship_check_order s "Jordan" "Johnny")
    as (_ & Hsecond & _).
  destruct (add_friendship_check_order s "Alex" "Alex")
    as (_ & _ & Hself & _).
  split_and!.
  - apply Hmissing. vm_compute. reflexivity.
  - apply Hsecond; [exists 1 |]; vm_compute; reflexivity.
  - apply Hself; [exists 0; vm_compute |]; reflexivity.
Defined.

(** C7, as the claim states it, fails: two [Person] objects may carry the
    same name ([Person("Sam")] evaluated twice), and [add_friend] compares
    the objects, not their names, so the second is appended to the friends
    list of the first. *)
Lemma add_friend_same_name_appends :
  let s := exec (new_Person "Sam" ;; new_Person "Sam") empty_network in
  heap s !! 0 = Some (mkPerson "Sam" []) ∧
  heap s !! 1 = Some (mkPerson "Sam" []) ∧
  add_friend 0 1 s =
    (Return tt, mkNetwork [mkPerson "Sam" [1]; mkPerson "Sam" []] [], []).
Proof. vm_compute. split_and!; reflexivity. Qed.

(** C7, amended.  [p.add_friend(q)] appends [q] to the friends list of [p]
    unless [q] is the same object as [p] or that object is already in the
    list; in these two cases the call changes nothing; in all cases it
    returns normally, prints nothing and touches no other object.  In a
    state built by the methods of [SocialNetwork], two registered people
    with the same name are the same object, so there [p.add_friend(q)]
    changes nothing whenever [q] has the name of [p]. *)
Theorem add_friend_by_reference
    (s : SocialNetwork) (cs : list call) (p q : addr) :
  (∀ P, heap s !! p = Some P →
     let s' := exec (add_friend p q) s in
     result (add_friend p q) s = Return tt ∧
     output (add_friend p q) s = [] ∧
     people s' = people s ∧
     (∀ c, c ≠ p → heap s' !! c = heap s !! c) ∧
     heap s' !! p =
       Some (mkPerson (name P)
               (if decide (q = p ∨ q ∈ friends P) then friends P
                else friends P ++ [q])) ∧
     (q = p ∨ q ∈ friends P → s' = s)) ∧
  (let r := state_after cs in
   ∀ k1 k2 P Q,
     dict_get (people r) k1 = Some p → dict_get (people r) k2 = Some q →
     heap r !! p = Some P → heap r !! q = Some Q → name Q = name P →
     p = q ∧ add_friend p q r = (Return tt, r, [])).
Proof.
  split.
  - intros P HP s'. subst s'. unfold result, output, exec.
    destruct (decide (q = p)) as [->|Hne].
    { rewrite add_friend_same. simpl. rewrite decide_True by auto.
      destruct P; by split_and!. }
    destruct (decide (q ∈ friends P)) as [Hin|Hnin].
    { rewrite (add_friend_present s p q P) by done. simpl.
      rewrite decide_True by auto. destruct P; by split_and!. }
    rewrite (add_friend_new s p q P) by done. simpl.
    rewrite decide_False by tauto.
    split_and!; [done..| | |tauto].
    + intros c Hc. by rewrite list_lookup_insert_ne.
    + apply list_lookup_insert_eq. by eapply lookup_lt_Some.
  - intros r k1 k2 P Q Hk1 Hk2 HP HQ Hname.
    pose proof (state_after_wf cs) as Hwf. fold r in Hwf.
    destruct (wf_get r k1 p Hwf Hk1) as (P' & ? & Hn1).
    destruct (wf_get r k2 q Hwf Hk2) as (Q' & ? & Hn2).
    assert (P' = P) as -> by congruence.
    assert (Q' = Q) as -> by congruence.
    assert (k2 = k1) as -> by congruence.
    assert (q = p) as -> by congruence.
    split; [done | apply add_friend_same].
Qed.

Lemma add_friend_by_reference_witness :
  let s := state_after [AddPerson "Alex"; AddPerson "Jordan"] in
  heap (exec (add_friend 0 1) s) !! 0 = Some (mkPerson "Alex" [1]) ∧
  add_friend 0 0 s = (Return tt, s, []).
Proof.
  intros s.
  destruct (add_friend_by_reference s [AddPerson "Alex"; AddPerson "Jordan"]
              0 1) as [Hspec _].
  destruct (add_friend_by_reference s [AddPerson "Alex"; AddPerson "Jordan"]
              0 0) as [_ Hsame].
  split.
  - apply (Hspec (mkPerson "Alex" [])). vm_compute. reflexivity.
  - apply (Hsame "Alex" "Alex" (mkPerson "Alex" []) (mkPerson "Alex" []));
      vm_compute; reflexivity.
Defined.

(** C8. [add_person] looks at the name only to see whether it is
    registered: any string that is not, the empty string included, is
    registered without a message, as a person of that name with an empty
    friends list.  A person registered under the empty string takes part in
    [add_friendship] and in the report like any other. *)
Theorem add_person_any_string (s : SocialNetwork) (nm : string) :
  (dict_get (people s) nm = None →
   let s' := exec (add_person nm) s in
   result (add_person nm) s = Return tt ∧
   output (add_person nm) s = [] ∧
   dict_get (people s') nm = Some (length (heap s)) ∧
   heap s' !! length (heap s) = Some (mkPerson nm [])) ∧
  (let e := state_after [AddPerson ""; AddPerson "Bob"] in
   let e' := mkNetwork [mkPerson "" [1]; mkPerson "Bob" [0]]
                       [("", 0); ("Bob", 1)] in
   e = mkNetwork [mkPerson "" []; mkPerson "Bob" []] [("", 0); ("Bob", 1)] ∧
   add_person "" e = (Return tt, e, [already_exists_msg ""]) ∧
   add_friendship "" "Bob" e = (Return tt, e', []) ∧
   print_network e' =
     (Return tt, e', [" is friends with: Bob"; "Bob is friends with: "])).
Proof.
  split; [|vm_compute; split_and!; reflexivity].
  intros Hnew s'. subst s'. unfold result, output, exec.
  rewrite add_person_fresh by done. simpl. split_and!; [done..| |].
  - by apply dict_get_app_fresh.
  - by apply list_lookup_middle.
Qed.

Lemma add_person_any_string_witness :
  let s' := exec (add_person "") empty_network in
  result (add_person "") empty_network = Return tt ∧
  output (add_person "") empty_network = [] ∧
  dict_get (people s') "" = Some 0 ∧
  heap s' !! 0 = Some (mkPerson "" []).
Proof.
  apply (proj1 (add_person_any_string empty_network "")). reflexivity.
Defined.

(** C9. [print_network] only reads: whatever it prints, and even in a
    state where it would fail, the registry and every friends list, in its
    stored order, are afterwards what they were.  In the demonstration
    Taylor's line is sorted while Taylor's list keeps the order in which
    the friendships were made. *)
Theorem print_network_pure_read (s : SocialNetwork) :
  exec print_network s = s ∧
  heap (exec print_network (state_after demo_calls)) !! 3 =
    Some (mkPerson "Taylor" [1; 5; 0]) ∧
  output print_network (state_after demo_calls) !! 3 =
    Some "Taylor is friends with: Alex, Jordan, Riley".
Proof.
  split; [|vm_compute; split; reflexivity].
  unfold exec, print_network. rewrite bind_run. unfold people_items.
  destruct (for_print_person_state (people s) s) as (r & out & Hloop).
  by rewrite Hloop.
Qed.

Lemma linked_comm s a1 a2 P1 P2 :
  a1 ≠ a2 → linked s a1 a2 P1 P2 = linked s a2 a1 P2 P1.
Proof. intros Hne. unfold linked. f_equal. by apply list_insert_insert_ne. Qed.

(** C10. In every state built by the methods, [add_friendship(a, b)] and
    [add_friendship(b, a)] lead to the same state, with the same registry
    and the same friends lists in the same order.  When one of the two
    calls prints a message so does the other, and neither changes the
    state.  Otherwise both names are registered and differ, both calls
    return without a message, and the state they lead to is the old one
    with [b]'s person appended to the friends list of [a]'s person and
    [a]'s person appended to the friends list of [b]'s person, each unless
    it was there already; the registry and every other person are as
    before. *)
Theorem add_friendship_commutes (cs : list call) (a b : string) :
  let s := state_after cs in
  let s' := exec (add_friendship a b) s in
  s' = exec (add_friendship b a) s ∧
  (output (add_friendship a b) s ≠ [] ∨
   (is_Some (dict_get (people s) a) ∧ is_Some (dict_get (people s) b) ∧
    a ≠ b)) ∧
  (output (add_friendship a b) s ≠ [] →
   output (add_friendship b a) s ≠ [] ∧
   s' = s ∧ exec (add_friendship b a) s = s) ∧
  (∀ pa pb,
     dict_get (people s) a = Some pa → dict_get (people s) b = Some pb →
     a ≠ b →
     ∃ A B,
       heap s !! pa = Some A ∧ heap s !! pb = Some B ∧ pa ≠ pb ∧
       add_friendship a b s = (Return tt, s', []) ∧
       add_friendship b a s = (Return tt, s', []) ∧
       people s' = people s ∧
       heap s' !! pa =
         Some (mkPerson (name A)
                 (if decide (pb ∈ friends A) then friends A
                  else friends A ++ [pb])) ∧
       heap s' !! pb =
         Some (mkPerson (name B)
                 (if decide (pa ∈ friends B) then friends B
                  else friends B ++ [pa])) ∧
       ∀ c, c ≠ pa → c ≠ pb → heap s' !! c = heap s !! c).
Proof.
  intros s s'. subst s'.
  pose proof (state_after_wf cs) as Hwf. fold s in Hwf.
  assert (exec (add_friendship a b) s = exec (add_friendship b a) s) as Hcomm.
  { unfold exec. destruct (decide (a = b)) as [->|Hne]; [done|].
    destruct (dict_get (people s) a) as [pa|] eqn:Ha;
      destruct (dict_get (people s) b) as [pb|] eqn:Hb.
    - destruct (add_friendship_registered s a b pa pb)
        as (A & B & HA & HB & Hna & [(HinA & HinB & ->)|(HnA & HnB & ->)]);
        [done..| |];
      destruct (add_friendship_registered s b a pb pa)
        as (B' & A' & HB' & HA' & _ & [(? & ? & ->)|(? & ? & ->)]);
        try done; simplify_eq; try done.
      simpl. by apply linked_comm.
    - rewrite add_friendship_unknown2 by done.
      by rewrite add_friendship_unknown1.
    - rewrite add_friendship_unknown1 by done.
      by rewrite add_friendship_unknown2.
    - by rewrite !add_friendship_unknown1. }
  split_and!.
  - exact Hcomm.
  - unfold output.
    destruct (dict_get (people s) a) as [pa|] eqn:Ha;
      [|left; by rewrite add_friendship_unknown1].
    destruct (dict_get (people s) b) as [pb|] eqn:Hb;
      [|left; by rewrite add_friendship_unknown2].
    destruct (decide (a = b)) as [->|Hne];
      [left; by rewrite add_friendship_self|].
    right. by split_and!.
  - intros Hout.
    destruct (add_friendship_output s a b Hout) as [Hsame _].
    split_and!; [|done|by rewrite <- Hcomm].
    unfold output in *.
    destruct (dict_get (people s) b) as [pb|] eqn:Hb;
      [|by rewrite add_friendship_unknown1].
    destruct (dict_get (people s) a) as [pa|] eqn:Ha;
      [|by rewrite add_friendship_unknown2].
    destruct (decide (b = a)) as [->|Hne];
      [by rewrite add_friendship_self|].
    exfalso. apply Hout.
    destruct (add_friendship_registered s a b pa pb)
      as (A & B & _ & _ & _ & [(_ & _ & ->)|(_ & _ & ->)]); done.
  - intros pa pb Ha Hb Hne. unfold exec in *.
    destruct (add_friendship_registered s a b pa pb)
      as (A & B & HA & HB & Hna & Hab); [done..|].
    destruct (add_friendship_registered s b a pb pa)
      as (B' & A' & HB' & HA' & _ & Hba); [done..|].
    assert (A' = A) as -> by congruence.
    assert (B' = B) as -> by congruence.
    exists A, B. split_and!; [done..| | | | | |].
    + by destruct Hab as [(_ & _ & ->)|(_ & _ & ->)].
    + rewrite Hcomm. by destruct Hba as [(_ & _ & ->)|(_ & _ & ->)].
    + by destruct Hab as [(_ & _ & ->)|(_ & _ & ->)].
    + destruct Hab as [(HinA & _ & ->)|(HnA & _ & ->)]; simpl.
      * rewrite decide_True by done. by destruct A.
      * rewrite decide_False by done.
        apply (linked_lookup s pa pb A B); auto.
    + destruct Hab as [(_ & HinB & ->)|(_ & HnB & ->)]; simpl.
      * rewrite decide_True by done. by destruct B.
      * rewrite decide_False by done.
        apply (linked_lookup s pa pb A B); auto.
    + intros c Hca Hcb.
      destruct Hab as [(_ & _ & ->)|(_ & _ & ->)]; simpl; [done|].
      by rewrite !list_lookup_insert_ne.
Qed.

Lemma add_friendship_commutes_witness :
  let s := state_after [AddPerson "Alex"; AddPerson "Jordan"] in
  let s' := mkNetwork [mkPerson "Alex" [1]; mkPerson "Jordan" [0]]
                      [("Alex", 0); ("Jordan", 1)] in
  add_friendship "Alex" "Jordan" s = (Return tt, s', []) ∧
  add_friendship "Jordan" "Alex" s = (Return tt, s', []).
Proof.
  intros s s'.
  destruct (add_friendship_commutes [AddPerson "Alex"; AddPerson "Jordan"]
              "Alex" "Jordan") as (_ & _ & _ & Hboth).
  destruct (Hboth 0 1) as (A & B & _ & _ & _ & Hab & Hba & _).
  - vm_compute. reflexivity.
  - vm_compute. reflexivity.
  - vm_compute. discriminate.
  - split; [exact Hab | exact Hba].
Defined.

(** * Further properties *)

(** ** What one call can do, in any state *)

Lemma exec_seq {A B} (m : M A) (k : M B) s :
  (∃ a, result m s = Return a ∧
        exec (m ;; k) s = exec k (exec m s) ∧
        result (m ;; k) s = result k (exec m s) ∧
        output (m ;; k) s = output m s ++ output k (exec m s)) ∨
  (∃ e, result m s = Raise e ∧
        exec (m ;; k) s = exec m s ∧
        result (m ;; k) s = Raise e ∧
        output (m ;; k) s = output m s).
Proof.
  unfold result, exec, output. rewrite bind_run.
  destruct (m s) as [[[a|e] s1] o1]; simpl.
  - left. exists a. by destruct (k s1) as [[r2 s2] o2].
  - right. by exists e.
Qed.

Lemma add_friend_effect s self friend :
  add_friend self friend s = (Return tt, s, []) ∨
  (∃ p, heap s !! self = Some p ∧ friend ≠ self ∧ (friend ∉ friends p) ∧
        add_friend self friend s =
          (Return tt,
           mkNetwork
             (<[self := mkPerson (name p) (friends p ++ [friend])]> (heap s))
             (people s), [])) ∨
  (heap s !! self = None ∧
   add_friend self friend s = (Raise (BadReference self), s, [])).
Proof.
  destruct (decide (friend = self)) as [->|Hne];
    [left; apply add_friend_same|].
  destruct (heap s !! self) as [p|] eqn:Hp;
    [|right; right; split; [done | by apply add_friend_dangling]].
  destruct (decide (friend ∈ friends p)) as [Hin|Hnin].
  - left. by apply (add_friend_present s self friend p).
  - right; left. exists p. split_and!; [done..|].
    by apply add_friend_new.
Qed.

(** *** Nothing is removed *)

Lemma grows_refl s : grows s s.
Proof. split; [done|]. intros a p Hp. by exists p. Qed.

Lemma grows_trans s1 s2 s3 : grows s1 s2 → grows s2 s3 → grows s1 s3.
Proof.
  intros [Hp12 Hh12] [Hp23 Hh23]. split; [by etrans|].
  intros a p Hp. destruct (Hh12 a p Hp) as (p2 & Hp2 & Hn2 & Hf2).
  destruct (Hh23 a p2 Hp2) as (p3 & Hp3 & Hn3 & Hf3).
  exists p3. split_and!; [done | congruence | by etrans].
Qed.

Lemma add_friend_grows s self friend :
  grows s (exec (add_friend self friend) s).
Proof.
  unfold exec.
  destruct (add_friend_effect s self friend)
    as [->|[(p & Hp & _ & _ & ->)|[_ ->]]]; try apply grows_refl.
  split; [done|]. unfold addr in *. simpl. intros a q Hq.
  destruct (decide (a = self)) as [->|Hne].
  - rewrite Hp in Hq. injection Hq as <-. eexists. split_and!.
    + apply list_lookup_insert_eq. by eapply lookup_lt_Some.
    + done.
    + simpl. by apply prefix_app_r.
  - exists q. by rewrite list_lookup_insert_ne.
Qed.

Lemma add_friendship_steps s a b :
  exec (add_friendship a b) s = s ∨
  ∃ pa pb,
    dict_get (people s) a = Some pa ∧ dict_get (people s) b = Some pb ∧
    a ≠ b ∧
    (exec (add_friendship a b) s = exec (add_friend pa pb) s ∨
     exec (add_friendship a b) s =
       exec (add_friend pb pa) (exec (add_friend pa pb) s)).
Proof.
  destruct (dict_get (people s) a) as [pa|] eqn:Ha;
    [|left; unfold exec; by rewrite add_friendship_unknown1].
  destruct (dict_get (people s) b) as [pb|] eqn:Hb;
    [|left; unfold exec; by rewrite add_friendship_unknown2].
  destruct (decide (a = b)) as [->|Hne];
    [left; unfold exec; by rewrite add_friendship_self|].
  right. exists pa, pb. split_and!; [done..|].
  assert (exec (add_friendship a b) s =
          exec (add_friend pa pb ;; add_friend pb pa) s) as ->.
  { unfold exec. by rewrite (add_friendship_both s a b pa pb). }
  destruct (exec_seq (add_friend pa pb) (add_friend pb pa) s)
    as [(? & _ & -> & _)|(? & _ & -> & _)]; auto.
Qed.

Lemma add_friendship_grows s a b : grows s (exec (add_friendship a b) s).
Proof.
  destruct (add_friendship_steps s a b)
    as [->|(pa & pb & _ & _ & _ & [->| ->])].
  - apply grows_refl.
  - apply add_friend_grows.
  - eapply grows_trans; apply add_friend_grows.
Qed.

Lemma add_person_grows s nm : grows s (exec (add_person nm) s).
Proof.
  unfold exec. destruct (dict_get (people s) nm) as [a|] eqn:Hget.
  - rewrite (add_person_present s nm a) by done. apply grows_refl.
  - rewrite add_person_fresh by done. split; simpl.
    + by apply prefix_app_r.
    + intros a p Hp. exists p. split_and!; [|done..].
      by apply lookup_app_l_Some.
Qed.

Lemma do_call_grows s c : grows s (exec (do_call c) s).
Proof.
  destruct c as [nm|a b|]; simpl.
  - apply add_person_grows.
  - apply add_friendship_grows.
  - rewrite print_network_state. apply grows_refl.
Qed.

Lemma state_from_grows cs : ∀ s, grows s (state_from s cs).
Proof.
  induction cs as [|c cs IH]; intros s; simpl; [apply grows_refl|].
  eapply grows_trans; [apply do_call_grows | apply IH].
Qed.

Lemma state_from_app s cs cs' :
  state_from s (cs ++ cs') = state_from (state_from s cs) cs'.
Proof. unfold state_from. by rewrite fold_left_app. Qed.

(** *** The registry and the names *)

Lemma add_friend_keeps s x y :
  people (exec (add_friend x y) s) = people s ∧
  name <$> heap (exec (add_friend x y) s) = name <$> heap s.
Proof.
  unfold exec.
  destruct (add_friend_effect s x y)
    as [->|[(p & Hp & _ & _ & ->)|[_ ->]]]; [done| |done].
  split; [done|]. simpl. rewrite list_fmap_insert. simpl.
  apply list_insert_id. unfold addr in *. by rewrite list_lookup_fmap, Hp.
Qed.

Lemma add_friendship_keeps s a b :
  people (exec (add_friendship a b) s) = people s ∧
  name <$> heap (exec (add_friendship a b) s) = name <$> heap s.
Proof.
  destruct (add_friendship_steps s a b)
    as [->|(pa & pb & _ & _ & _ & [->| ->])]; [done|..].
  - apply add_friend_keeps.
  - destruct (add_friend_keeps (exec (add_friend pa pb) s) pb pa) as [-> ->].
    apply add_friend_keeps.
Qed.

Lemma do_call_people s c :
  people (exec (do_call c) s) =
    match c with
    | AddPerson nm =>
        if decide (is_Some (dict_get (people s) nm)) then people s
        else people s ++ [(nm, length (heap s))]
    | _ => people s
    end.
Proof.
  destruct c as [nm|a b|]; cbn [do_call].
  - unfold exec. destruct (dict_get (people s) nm) as [a|] eqn:Hget.
    + rewrite (add_person_present s nm a), decide_True by done. done.
    + rewrite add_person_fresh by done. cbn [fst snd people].
      rewrite decide_False; [done | by intros [? ?]].
  - apply add_friendship_keeps.
  - by rewrite print_network_state.
Qed.

Lemma dict_get_is_Some d key : is_Some (dict_get d key) ↔ key ∈ d.*1.
Proof.
  rewrite <- not_eq_None_Some. rewrite dict_get_None.
  split; [apply dec_stable | auto].
Qed.

Lemma do_call_aligned s c : aligned s → aligned (exec (do_call c) s).
Proof.
  intros [Hnames Haddrs]. destruct c as [nm|a b|]; simpl.
  - unfold exec. destruct (dict_get (people s) nm) as [a|] eqn:Hget.
    + by rewrite (add_person_present s nm a).
    + rewrite add_person_fresh by done. split; simpl.
      * rewrite !fmap_app, Hnames. done.
      * rewrite fmap_app, length_app, Haddrs. simpl.
        by rewrite seq_app.
  - destruct (add_friendship_keeps s a b) as [Hp Hn]. split.
    + by rewrite Hn, Hp.
    + rewrite Hp, Haddrs. f_equal.
      rewrite <- (length_fmap name (heap s)), <- Hn. by rewrite length_fmap.
  - by rewrite print_network_state.
Qed.

Lemma state_from_aligned cs : ∀ s, aligned s → aligned (state_from s cs).
Proof.
  induction cs as [|c cs IH]; intros s Hs; simpl; [done|].
  by apply IH, do_call_aligned.
Qed.

(** X1. In a state built by the methods every object is a registered
    person and every registered person is an object of its own: the names
    of the objects are the keys of the registry, in the same order, and
    the addresses in the registry count up from 0.  [add_person] on a known
    name makes no object, and no call renames one. *)
Theorem objects_are_registered (cs : list call) :
  let s := state_after cs in
  name <$> heap s = (people s).*1 ∧
  (people s).*2 = seq 0 (length (heap s)).
Proof. intros s. by apply (state_from_aligned cs empty_network). Qed.

Lemma registered_after (cs : list call) (nm : string) :
  is_Some (dict_get (people (state_after cs)) nm) ↔ AddPerson nm ∈ cs.
Proof.
  rewrite dict_get_is_Some. unfold state_after.
  induction cs as [|c cs IH] using rev_ind.
  - simpl. split; by intros ?%elem_of_nil.
  - rewrite state_from_app. simpl. rewrite do_call_people, elem_of_app.
    rewrite list_elem_of_singleton, <- IH.
    destruct c as [nm'|a b|]; [|split; [auto | by intros [?|?]]..].
    case_decide as Hreg.
    + split; [auto | intros [?|[= ->]]; [done|]].
      by apply dict_get_is_Some.
    + rewrite fmap_app, elem_of_app. simpl. rewrite list_elem_of_singleton.
      split; intros [?|?]; simplify_eq; auto.
Qed.

(** X2. A name is registered after a history of calls exactly when the
    history has an [add_person] call for it: [add_friendship] and
    [print_network] register nobody, and nobody is ever unregistered. *)
Theorem registered_iff_added (cs : list call) (nm : string) :
  is_Some (dict_get (people (state_after cs)) nm) ↔ AddPerson nm ∈ cs.
Proof. exact (registered_after cs nm). Qed.

(** X3. The registry lists the names in the order of their first
    [add_person] call, each once. *)
Theorem registry_order (cs : list call) :
  (people (state_after cs)).*1 =
    reverse (remove_dups (reverse (added_names cs))).
Proof.
  unfold state_after. induction cs as [|c cs IH] using rev_ind; [done|].
  rewrite state_from_app. simpl. rewrite do_call_people.
  unfold added_names in *. rewrite omap_app. simpl.
  destruct c as [nm|a b|]; simpl; rewrite ?app_nil_r; [|done..].
  rewrite reverse_snoc. simpl.
  assert (nm ∈ reverse (omap (λ c, match c with
                                   | AddPerson nm => Some nm
                                   | _ => None
                                   end) cs) ↔
          is_Some (dict_get (people (state_from empty_network cs)) nm))
    as Hiff.
  { rewrite dict_get_is_Some, IH, !elem_of_reverse.
    by rewrite elem_of_remove_dups, elem_of_reverse. }
  case_decide as Hreg; destruct (decide_rel elem_of nm _) as [Hin|Hnin].
  - exact IH.
  - exfalso. by apply Hnin, Hiff.
  - exfalso. by apply Hreg, Hiff.
  - rewrite fmap_app, reverse_cons, IH. done.
Qed.

(** X4. In a state built by the methods every call returns normally:
    none raises [KeyError], and none meets a reference without object. *)
Theorem calls_return (cs : list call) (c : call) :
  result (do_call c) (state_after cs) = Return tt.
Proof.
  destruct (do_call_wf (state_after cs) c (state_after_wf cs)) as [_ Hres].
  exact Hres.
Qed.

(** X5. In any state whatever, [add_person] returns normally and
    [add_friendship] never raises [KeyError]: both lookups
    [self.people[...]] come after the tests that the keys are there. *)
Theorem lookups_are_guarded (s : SocialNetwork) (nm a b : string) :
  result (add_person nm) s = Return tt ∧
  (result (add_friendship a b) s = Return tt ∨
   ∃ x, result (add_friendship a b) s = Raise (BadReference x)).
Proof.
  split.
  - unfold result. destruct (dict_get (people s) nm) as [p|] eqn:Hget.
    + by rewrite (add_person_present s nm p).
    + by rewrite add_person_fresh.
  - unfold result.
    destruct (dict_get (people s) a) as [pa|] eqn:Ha;
      [|left; by rewrite add_friendship_unknown1].
    destruct (dict_get (people s) b) as [pb|] eqn:Hb;
      [|left; by rewrite add_friendship_unknown2].
    destruct (decide (a = b)) as [->|Hne];
      [left; by rewrite add_friendship_self|].
    rewrite (add_friendship_both s a b pa pb) by done. rewrite bind_run.
    destruct (add_friend_effect s pa pb)
      as [->|[(p & _ & _ & _ & ->)|[_ ->]]]; [| |right; by eexists].
    + destruct (add_friend_effect s pb pa)
        as [->|[(p & _ & _ & _ & ->)|[_ ->]]]; [by left..|right; by eexists].
    + match goal with |- context [add_friend pb pa ?s1] =>
        destruct (add_friend_effect s1 pb pa)
          as [->|[(q & _ & _ & _ & ->)|[_ ->]]] end;
        [by left..|right; by eexists].
Qed.

(** ** The graph *)

(** X6. In a state built by the methods nobody is in their own friends
    list, and no friends list holds a person twice. *)
Theorem friends_lists_are_sets (cs : list call) (a : addr) (A : Person) :
  heap (state_after cs) !! a = Some A →
  (a ∉ friends A) ∧ NoDup (friends A).
Proof.
  intros HA. pose proof (state_after_wf cs) as Hwf. split.
  - intros Hin. apply (wf_irrefl _ Hwf a). by exists A.
  - by apply (wf_nodup _ Hwf a).
Qed.

Lemma friends_lists_are_sets_witness :
  (0 ∉ friends (mkPerson "Alex" [1; 2; 3])) ∧
  NoDup (friends (mkPerson "Alex" [1; 2; 3])).
Proof.
  apply (friends_lists_are_sets demo_calls 0). vm_compute. reflexivity.
Defined.

(** X7. In a state built by the methods there is no edge to nowhere: every
    member of a friends list is the object of a registered person, found
    in the registry under its own name. *)
Theorem friends_are_registered
    (cs : list call) (a f : addr) (A : Person) :
  let s := state_after cs in
  heap s !! a = Some A → f ∈ friends A →
  ∃ nm F,
    dict_get (people s) nm = Some f ∧ heap s !! f = Some F ∧ name F = nm.
Proof.
  intros s HA Hin. pose proof (state_after_wf cs) as Hwf. fold s in Hwf.
  destruct (wf_closed s Hwf a f) as [nm Hnm]; [by exists A|].
  destruct (wf_named s Hwf nm f Hnm) as (F & HF & Hname).
  exists nm, F. split_and!; [|done..].
  apply dict_get_NoDup; [apply Hwf | done].
Qed.

Lemma friends_are_registered_witness :
  ∃ nm F,
    dict_get (people (state_after demo_calls)) nm = Some 3 ∧
    heap (state_after demo_calls) !! 3 = Some F ∧ name F = nm.
Proof.
  apply (friends_are_registered demo_calls 0 3 (mkPerson "Alex" [1; 2; 3])).
  - vm_compute. reflexivity.
  - vm_compute. do 2 right. left.
Defined.

Lemma add_friendship_links s a b :
  wf s → a ≠ b →
  is_Some (dict_get (people s) a) → is_Some (dict_get (people s) b) →
  friends_with (exec (add_friendship a b) s) a b ∧
  friends_with (exec (add_friendship a b) s) b a.
Proof.
  intros Hwf Hne [pa Ha] [pb Hb]. unfold exec.
  destruct (add_friendship_registered s a b pa pb)
    as (A & B & HA & HB & Hna & [(HinA & HinB & ->)|(HnA & HnB & ->)]);
    [done..| |]; simpl.
  - split; [by exists pa, pb, A | by exists pb, pa, B].
  - split.
    + exists pa, pb, (mkPerson (name A) (friends A ++ [pb])).
      split_and!; [done..| |].
      * apply (linked_lookup s pa pb A B); auto.
      * simpl. apply elem_of_app. right. by apply list_elem_of_singleton.
    + exists pb, pa, (mkPerson (name B) (friends B ++ [pa])).
      split_and!; [done..| |].
      * apply (linked_lookup s pa pb A B); auto.
      * simpl. apply elem_of_app. right. by apply list_elem_of_singleton.
Qed.

(** X8. After [add_friendship(a, b)] on two distinct registered names, in
    a state built by the methods, each of the two has the other in its
    friends list. *)
Theorem add_friendship_makes_friends (cs : list call) (a b : string) :
  let s := state_after cs in
  a ≠ b →
  is_Some (dict_get (people s) a) → is_Some (dict_get (people s) b) →
  friends_with (exec (add_friendship a b) s) a b ∧
  friends_with (exec (add_friendship a b) s) b a.
Proof.
  intros s Hne Ha Hb. apply add_friendship_links; [|done..].
  apply state_after_wf.
Qed.

Lemma add_friendship_makes_friends_witness :
  let s := state_after [AddPerson "Alex"; AddPerson "Jordan"] in
  friends_with (exec (add_friendship "Alex" "Jordan") s) "Alex" "Jordan" ∧
  friends_with (exec (add_friendship "Alex" "Jordan") s) "Jordan" "Alex".
Proof.
  apply (add_friendship_makes_friends [AddPerson "Alex"; AddPerson "Jordan"]
           "Alex" "Jordan").
  - vm_compute. discriminate.
  - exists 0. vm_compute. reflexivity.
  - exists 1. vm_compute. reflexivity.
Defined.

Lemma dict_get_prefix d d' key v :
  d `prefix_of` d' → dict_get d key = Some v → dict_get d' key = Some v.
Proof.
  intros [k ->]. induction d as [|[k' w] d IH]; simpl; [done|].
  case_decide; auto.
Qed.

Lemma friends_with_grows s s' a b :
  grows s s' → friends_with s a b → friends_with s' a b.
Proof.
  intros [Hpre Hobj] (pa & pb & A & Ha & Hb & HA & Hin).
  destruct (Hobj pa A HA) as (A' & HA' & _ & [k Hfr]).
  exists pa, pb, A'. split_and!; [by eapply dict_get_prefix..|done|].
  rewrite Hfr. apply elem_of_app. by left.
Qed.

(** X9. No call removes, renames or reorders anything, in any state: after
    any history the old registry starts the new one, and every object keeps
    its address and its name, and its old friends list starts its new one.
    So a name stays registered, under the same object, and two people who
    are friends stay friends. *)
Theorem nothing_is_removed (s : SocialNetwork) (cs : list call) :
  grows s (state_from s cs) ∧
  (∀ nm a, dict_get (people s) nm = Some a →
           dict_get (people (state_from s cs)) nm = Some a) ∧
  (∀ a b, friends_with s a b → friends_with (state_from s cs) a b).
Proof.
  pose proof (state_from_grows cs s) as Hgrows.
  split_and!; [done| |].
  - intros nm a. apply dict_get_prefix, Hgrows.
  - intros a b. by apply friends_with_grows.
Qed.

Lemma dict_get_snoc d k v key x :
  dict_get (d ++ [(k, v)]) key = Some x →
  dict_get d key = Some x ∨ (key = k ∧ x = v).
Proof.
  induction d as [|[k' w] d IH]; simpl.
  - case_decide; [|done]. intros [= <-]. auto.
  - case_decide; auto.
Qed.

Lemma friends_with_irrefl s a b : wf s → friends_with s a b → a ≠ b.
Proof.
  intros Hwf (pa & pb & A & Ha & Hb & HA & Hin) ->.
  rewrite Ha in Hb. injection Hb as <-.
  apply (wf_irrefl s Hwf pa). by exists A.
Qed.

(** One call makes two people friends only if it is [add_friendship] on
    their names. *)
Lemma friends_with_step s c a b :
  wf s → friends_with (exec (do_call c) s) a b →
  friends_with s a b ∨
  ((c = AddFriendship a b ∨ c = AddFriendship b a) ∧
   is_Some (dict_get (people s) a) ∧ is_Some (dict_get (people s) b)).
Proof.
  intros Hwf. destruct c as [nm|n1 n2|]; simpl.
  - unfold exec. destruct (dict_get (people s) nm) as [x|] eqn:Hget.
    { rewrite (add_person_present s nm x) by done. auto. }
    rewrite add_person_fresh by done.
    intros (pa & pb & A & Ha & Hb & HA & Hin). left.
    assert (lists s pa pb) as (A0 & HA0 & Hin0).
    { apply (fresh_lists s nm). by exists A. }
    assert (pa < length (heap s)) by (by eapply lookup_lt_Some).
    assert (pb < length (heap s)).
    { destruct (wf_closed s Hwf pa pb) as [n Hn]; [by exists A0|].
      destruct (wf_named s Hwf n pb Hn) as (B0 & HB0 & _).
      by eapply lookup_lt_Some. }
    simpl in Ha, Hb.
    apply dict_get_snoc in Ha as [Ha|[_ ->]]; [|lia].
    apply dict_get_snoc in Hb as [Hb|[_ ->]]; [|lia].
    by exists pa, pb, A0.
  - unfold exec.
    destruct (dict_get (people s) n1) as [a1|] eqn:H1;
      [|rewrite add_friendship_unknown1 by done; auto].
    destruct (dict_get (people s) n2) as [a2|] eqn:H2;
      [|rewrite add_friendship_unknown2 by done; auto].
    destruct (decide (n1 = n2)) as [->|Hne];
      [rewrite add_friendship_self by done; auto|].
    destruct (add_friendship_registered s n1 n2 a1 a2)
      as (P1 & P2 & HP1 & HP2 & Hna & [(_ & _ & ->)|(_ & _ & ->)]);
      [done..|auto|].
    intros (pa & pb & A & Ha & Hb & HA & Hin). simpl in Ha, Hb.
    assert (lists (linked s a1 a2 P1 P2) pa pb) as Hl by (by exists A).
    apply (linked_lists s a1 a2 P1 P2 HP1 HP2 Hna) in Hl
      as [(A0 & HA0 & Hin0)|[[-> ->]|[-> ->]]].
    + left. by exists pa, pb, A0.
    + right. rewrite (wf_get_inj s a n1 a1), (wf_get_inj s b n2 a2) by done.
      rewrite H1, H2. split_and!; [by left | by eexists..].
    + right. rewrite (wf_get_inj s a n2 a2), (wf_get_inj s b n1 a1) by done.
      rewrite H1, H2. split_and!; [by right | by eexists..].
  - rewrite print_network_state. auto.
Qed.

(** X10. The friendships of a state are read off its history: [a] has [b]
    in its friends list exactly when the names differ and the history has
    a call [add_friendship(a, b)] or [add_friendship(b, a)] that comes
    after [add_person] calls for both names. *)
Theorem friends_iff_calls (cs : list call) (a b : string) :
  friends_with (state_after cs) a b ↔
  a ≠ b ∧
  ∃ cs1 cs2,
    (cs = cs1 ++ AddFriendship a b :: cs2 ∨
     cs = cs1 ++ AddFriendship b a :: cs2) ∧
    AddPerson a ∈ cs1 ∧ AddPerson b ∈ cs1.
Proof.
  split.
  - intros Hfr. split; [by eapply friends_with_irrefl, Hfr; apply state_after_wf|].
    revert Hfr. unfold state_after.
    induction cs as [|c cs IH] using rev_ind.
    { by intros (pa & pb & A & Ha & _). }
    rewrite state_from_app. simpl.
    intros Hstep.
    apply friends_with_step in Hstep as [Hold|(Hc & Ha & Hb)];
      [| |apply (state_after_wf cs)].
    + destruct (IH Hold) as (cs1 & cs2 & Hcs & Hadded).
      exists cs1, (cs2 ++ [c]). split; [|done].
      destruct Hcs as [-> | ->]; [left | right];
        by rewrite <- app_assoc.
    + exists cs, []. split; [destruct Hc as [-> | ->]; auto|].
      split; by apply registered_after.
  - intros (Hne & cs1 & cs2 & Hcs & Ha & Hb).
    apply registered_after in Ha, Hb.
    pose proof (state_after_wf cs1) as Hwf.
    destruct Hcs as [-> | ->]; unfold state_after;
      rewrite state_from_app; simpl;
      eapply friends_with_grows; try apply state_from_grows.
    + by apply add_friendship_links.
    + by apply add_friendship_links.
Qed.

(** ** The report and the order of the friendships *)

Lemma sort_Permutation l1 l2 : l1 ≡ₚ l2 → sort l1 = sort l2.
Proof.
  intros Hperm. unfold sort.
  apply (Sorted_unique String.le); [apply (Sorted_merge_sort _)..|].
  by rewrite !merge_sort_Permutation.
Qed.

Lemma named_name_at s l names :
  Forall2 (named s) l names → names = name_at s <$> l.
Proof.
  induction 1 as [|f nm l names (q & Hq & <-) _ IH]; [done|].
  simpl. unfold name_at at 1. rewrite Hq. simpl. by f_equal.
Qed.

Lemma same_graph_report s1 s2 :
  wf s1 → wf s2 → same_graph s1 s2 →
  output print_network s1 = output print_network s2.
Proof.
  intros Hwf1 Hwf2 (Hpeople & Hnamed & Hlists).
  destruct (print_network_run s1 Hwf1) as (lines1 & Hrun1 & Hl1).
  destruct (print_network_run s2 Hwf2) as (lines2 & Hrun2 & Hl2).
  unfold output. rewrite Hrun1, Hrun2. simpl.
  rewrite <- Hpeople in Hl2. clear Hrun1 Hrun2 Hpeople.
  revert lines1 Hl1 lines2 Hl2. generalize (people s1).
  intros items lines1 Hl1.
  induction Hl1 as [|[nm a] line1 items lines1 Hline1 _ IH];
    intros lines2 Hl2.
  { by apply Forall2_nil_inv_l in Hl2. }
  apply Forall2_cons_inv_l in Hl2 as (line2 & lines2' & Hline2 & Hl2 & ->).
  f_equal; [|by apply IH].
  destruct Hline1 as (p1 & names1 & Hp1 & Hn1 & Hnames1 & ->).
  destruct Hline2 as (p2 & names2 & Hp2 & Hn2 & Hnames2 & ->).
  simpl in *. do 3 f_equal. apply sort_Permutation.
  apply named_name_at in Hnames1 as ->.
  assert (names2 = name_at s1 <$> friends p2) as ->.
  { clear Hp2. induction Hnames2 as [|f n l names Hf _ IHn]; [done|].
    simpl. f_equal; [|done].
    apply Hnamed in Hf as (q & Hq & <-). unfold name_at. by rewrite Hq. }
  apply fmap_Permutation, NoDup_Permutation.
  - by apply (wf_nodup s1 Hwf1 a).
  - by apply (wf_nodup s2 Hwf2 a).
  - intros f. split; intros Hin.
    + destruct (proj1 (Hlists a f)) as (p & Hp & ?); [by exists p1|].
      unfold addr in *. by simplify_eq.
    + destruct (proj2 (Hlists a f)) as (p & Hp & ?); [by exists p2|].
      unfold addr in *. by simplify_eq.
Qed.

(** What [add_friendship] does to the graph of a state of the invariant. *)
Lemma add_friendship_graph s n1 n2 :
  wf s →
  let s' := exec (add_friendship n1 n2) s in
  people s' = people s ∧
  (∀ a nm, named s' a nm ↔ named s a nm) ∧
  (∀ x y, lists s' x y ↔ lists s x y ∨ asked s n1 n2 x y).
Proof.
  intros Hwf s'. subst s'. unfold exec, asked.
  destruct (dict_get (people s) n1) as [a1|] eqn:H1.
  2:{ rewrite add_friendship_unknown1 by done. simpl.
      split_and!; [done..|]. intros x y. split; [auto|].
      by intros [?|(_ & ? & ? & ? & _)]. }
  destruct (dict_get (people s) n2) as [a2|] eqn:H2.
  2:{ rewrite add_friendship_unknown2 by done. simpl.
      split_and!; [done..|]. intros x y. split; [auto|].
      by intros [?|(_ & ? & ? & _ & ? & _)]. }
  destruct (decide (n1 = n2)) as [->|Hne].
  { rewrite add_friendship_self by done. simpl.
    split_and!; [done..|]. intros x y. split; [auto|].
    by intros [?|(? & _)]. }
  destruct (add_friendship_registered s n1 n2 a1 a2)
    as (P1 & P2 & HP1 & HP2 & Hna & [(Hin1 & Hin2 & ->)|(_ & _ & ->)]);
    [done..| |]; simpl.
  - split_and!; [done..|]. intros x y. split; [auto|].
    intros [?|(_ & ? & ? & [= <-] & [= <-] & [[-> ->]|[-> ->]])]; [done|..].
    + by exists P1.
    + by exists P2.
  - split_and!; [done|apply linked_named; done|].
    intros x y. rewrite (linked_lists s a1 a2 P1 P2) by done.
    split; (intros [?|Hedge]; [by left|right]).
    + split; [done|]. exists a1, a2. split_and!; [done..|tauto].
    + destruct Hedge as (_ & ? & ? & [= <-] & [= <-] & ?). tauto.
Qed.

Lemma same_graph_length s1 s2 :
  same_graph s1 s2 → length (heap s1) = length (heap s2).
Proof.
  intros (_ & Hnamed & _).
  assert (∀ s s', (∀ a nm, named s a nm → named s' a nm) →
                  length (heap s) ≤ length (heap s')) as Hle.
  { intros s s' Himp. destruct (heap s) as [|p h] eqn:Hh using rev_ind.
    - simpl. lia.
    - clear IHh. destruct (Himp (length h) (name p)) as (q & Hq & _).
      + exists p. split; [|done]. rewrite Hh. by apply list_lookup_middle.
      + apply lookup_lt_Some in Hq. rewrite length_app. simpl. lia. }
  apply Nat.le_antisymm; apply Hle; intros a nm; apply Hnamed.
Qed.

Lemma do_call_same_graph s1 s2 c :
  wf s1 → wf s2 → same_graph s1 s2 →
  same_graph (exec (do_call c) s1) (exec (do_call c) s2).
Proof.
  intros Hwf1 Hwf2 Hsame.
  pose proof (same_graph_length s1 s2 Hsame) as Hlen.
  destruct Hsame as (Hpeople & Hnamed & Hlists).
  destruct c as [nm|n1 n2|]; simpl.
  - unfold exec. destruct (dict_get (people s1) nm) as [a|] eqn:Hget.
    + rewrite (add_person_present s1 nm a) by done.
      rewrite (add_person_present s2 nm a) by (by rewrite <- Hpeople).
      done.
    + rewrite !add_person_fresh by (by rewrite <- ?Hpeople). simpl.
      split_and!.
      * simpl. by rewrite Hpeople, Hlen.
      * intros a n. rewrite (fresh_named s1 nm), (fresh_named s2 nm).
        by rewrite Hnamed, Hlen.
      * intros a b. by rewrite (fresh_lists s1 nm), (fresh_lists s2 nm).
  - destruct (add_friendship_graph s1 n1 n2 Hwf1) as (Hp1 & Hn1 & Hl1).
    destruct (add_friendship_graph s2 n1 n2 Hwf2) as (Hp2 & Hn2 & Hl2).
    split_and!.
    + by rewrite Hp1, Hp2.
    + intros a n. by rewrite Hn1, Hn2.
    + intros x y. rewrite Hl1, Hl2, Hlists. unfold asked.
      by rewrite Hpeople.
  - by rewrite !print_network_state.
Qed.

Lemma state_from_same_graph cs :
  ∀ s1 s2, wf s1 → wf s2 → same_graph s1 s2 →
           same_graph (state_from s1 cs) (state_from s2 cs).
Proof.
  induction cs as [|c cs IH]; intros s1 s2 Hwf1 Hwf2 Hsame; simpl; [done|].
  apply IH; [by apply do_call_wf..|by apply do_call_same_graph].
Qed.

Lemma add_friendship_swap s a b c d :
  wf s →
  same_graph (exec (add_friendship c d) (exec (add_friendship a b) s))
             (exec (add_friendship a b) (exec (add_friendship c d) s)).
Proof.
  intros Hwf.
  destruct (add_friendship_wf s a b Hwf) as [Hwf1 _].
  destruct (add_friendship_wf s c d Hwf) as [Hwf2 _].
  destruct (add_friendship_graph s a b Hwf) as (Hp1 & Hn1 & Hl1).
  destruct (add_friendship_graph s c d Hwf) as (Hp2 & Hn2 & Hl2).
  destruct (add_friendship_graph _ c d Hwf1) as (Hp12 & Hn12 & Hl12).
  destruct (add_friendship_graph _ a b Hwf2) as (Hp21 & Hn21 & Hl21).
  split_and!.
  - by rewrite Hp12, Hp21, Hp1, Hp2.
  - intros x n. by rewrite Hn12, Hn21, Hn1, Hn2.
  - intros x y. rewrite Hl12, Hl21, Hl1, Hl2. unfold asked.
    rewrite Hp1, Hp2. tauto.
Qed.

(** X11. The report does not depend on the order in which friendships were
    made: exchanging two [add_friendship] calls that follow one another,
    anywhere in a history, leaves every later report the same, line for
    line. *)
Theorem report_ignores_friendship_order
    (cs cs' : list call) (a b c d : string) :
  output print_network
    (state_after (cs ++ AddFriendship a b :: AddFriendship c d :: cs')) =
  output print_network
    (state_after (cs ++ AddFriendship c d :: AddFriendship a b :: cs')).
Proof.
  pose proof (state_after_wf cs) as Hwf.
  apply same_graph_report; [apply state_after_wf..|].
  unfold state_after. rewrite !state_from_app. simpl.
  apply state_from_same_graph.
  - by apply add_friendship_wf, add_friendship_wf.
  - by apply add_friendship_wf, add_friendship_wf.
  - by apply add_friendship_swap.
Qed.

(** ** What a call leaves alone *)

(** X12. In any state [add_person(nm)] changes no object that is there and
    the registration of no other name: who was registered stays so under
    the same object, and who was not stays unregistered. *)
Theorem add_person_touches_nobody_else (s : SocialNetwork) (nm : string) :
  let s' := exec (add_person nm) s in
  (∀ key, key ≠ nm → dict_get (people s') key = dict_get (people s) key) ∧
  (∀ a, a < length (heap s) → heap s' !! a = heap s !! a).
Proof.
  intros s'. subst s'. unfold exec.
  destruct (dict_get (people s) nm) as [p|] eqn:Hget.
  { by rewrite (add_person_present s nm p). }
  rewrite add_person_fresh by done. simpl. split.
  - intros key Hkey. clear Hget. induction (people s) as [|[k v] d IH]; simpl.
    + by rewrite decide_False.
    + case_decide; [done | apply IH].
  - intros a Ha. by apply lookup_app_l.
Qed.

(** X13. In any state [add_friendship(a, b)] leaves the registry and every
    name as they are, and changes no object other than the two people
    named. *)
Theorem add_friendship_touches_two (s : SocialNetwork) (a b : string) :
  let s' := exec (add_friendship a b) s in
  people s' = people s ∧
  name <$> heap s' = name <$> heap s ∧
  (∀ c, dict_get (people s) a ≠ Some c → dict_get (people s) b ≠ Some c →
        heap s' !! c = heap s !! c).
Proof.
  intros s'. subst s'.
  destruct (add_friendship_keeps s a b) as [Hp Hn]. split_and!; [done..|].
  intros c Hca Hcb.
  assert (∀ t x y, x ≠ c →
            heap (exec (add_friend x y) t) !! c = heap t !! c) as Hstep.
  { intros t x y Hx. unfold exec.
    destruct (add_friend_effect t x y)
      as [->|[(p & _ & _ & _ & ->)|[_ ->]]]; [done| |done].
    simpl. by apply list_lookup_insert_ne. }
  destruct (add_friendship_steps s a b)
    as [->|(pa & pb & Ha & Hb & _ & [->| ->])]; [done|..].
  - apply Hstep. congruence.
  - rewrite !Hstep; [done|congruence..].
Qed.

(** X14. In a state built by the methods nobody has more friends than
    there are other people registered. *)
Theorem friends_count_bound (cs : list call) (a : addr) (A : Person) :
  let s := state_after cs in
  heap s !! a = Some A → length (friends A) < length (people s).
Proof.
  intros s HA. pose proof (state_after_wf cs) as Hwf. fold s in Hwf.
  destruct (state_from_aligned cs empty_network) as [Hnames Haddrs];
    [done|]. fold (state_after cs) in Hnames, Haddrs. fold s in Hnames, Haddrs.
  assert (length (people s) = length (heap s)) as ->.
  { by rewrite <- (length_fmap fst), <- Hnames, length_fmap. }
  assert (NoDup (a :: friends A)) as Hnodup.
  { apply NoDup_cons. split.
    - intros Hin. apply (wf_irrefl s Hwf a). by exists A.
    - by apply (wf_nodup s Hwf a). }
  assert (a :: friends A ⊆ seq 0 (length (heap s))) as Hsub.
  { intros f Hf. apply elem_of_seq. split; [lia|]. simpl.
    apply elem_of_cons in Hf as [->|Hf]; [by eapply lookup_lt_Some|].
    destruct (wf_closed s Hwf a f) as [n Hn]; [by exists A|].
    destruct (wf_named s Hwf n f Hn) as (F & HF & _).
    by eapply lookup_lt_Some. }
  apply NoDup_submseteq in Hsub; [|done].
  apply submseteq_length in Hsub. rewrite length_seq in Hsub.
  simpl in Hsub. lia.
Qed.

Lemma friends_count_bound_witness :
  length (friends (mkPerson "Alex" [1; 2; 3])) <
  length (people (state_after demo_calls)).
Proof.
  apply (friends_count_bound demo_calls 0). vm_compute. reflexivity.
Defined.

(** ** The script *)

(** X15. The script returns normally.  Its four calls meant as edge cases
    change nothing: the state at the end is the state of the six
    registrations and eight friendships.  Three of them print a message
    (the second [add_person("Alex")], the friendship with the unknown
    Johnny, Alex with Alex) and the repeated friendship of Alex and Jordan
    prints nothing; then come the header and the six lines of the
    report. *)
Theorem main_run :
  main empty_network =
    (Return tt, state_after demo_calls,
     [already_exists_msg "Alex";
      doesnt_exist_msg "Johnny";
      self_friend_msg;
      String LF "--- Network ---";
      "Alex is friends with: Jordan, Morgan, Taylor";
      "Jordan is friends with: Alex, Taylor";
      "Morgan is friends with: Alex, Casey, Riley";
      "Taylor is friends with: Alex, Jordan, Riley";
      "Casey is friends with: Morgan, Riley";
      "Riley is friends with: Casey, Morgan, Taylor"]).
Proof. vm_compute. reflexivity. Qed.
